(** * Nalsa: daily PER chart (app.py)

    A shallow embedding of [src/app.py], the Streamlit page that fetches a
    price history, divides every closing price by one EPS figure and plots
    the quotient with a 20-day moving average and a linear trend line.

    - Numbers.  numpy's [float64] is IEEE-754 binary64.  The arithmetic the
      script uses is collected in the class [Arith]; its instance [binary64]
      is the Standard Library's executable specification of binary64
      ([SpecFloat], precision 53, [emax] 1024), so quotients, comparisons,
      infinities and NaN behave as they do in numpy.
    - Effects.  [yfinance] is the outside world: a record of functions that
      return rows or raise.  Every call to it, every [info.get] and every
      quotient of line 80 is logged as an [event], so that "was not
      performed" can be stated.  [st.cache_data] is a finite map threaded
      through the calls.
    - Library code.  [rolling(...).mean()], [linregress] and [str.upper]
      belong to pandas, scipy and Python; they are modelled from their
      documented behaviour and marked as such. *)

From Stdlib Require Import ZArith List String Ascii Bool Lia.
From Stdlib Require Import SpecFloat.
From stdpp Require Import base gmap strings.
Import ListNotations.

(** ** Arithmetic *)

(** The operations of [float64] that the script and the modelled library
    routines use.  [fcompare] is the IEEE comparison: [None] when an operand
    is NaN. *)
Class Arith (F : Type) := {
  fzero : F;
  finf : F;
  fnan : F;
  of_nat : nat -> F;
  fadd : F -> F -> F;
  fsub : F -> F -> F;
  fmul : F -> F -> F;
  fdiv : F -> F -> F;
  fcompare : F -> F -> option comparison;
  fis_finite : F -> bool
}.

Section Comparisons.
Context {F : Type} `{Arith F}.

(** [x == y] *)
Definition feqb (x y : F) : bool :=
  match fcompare x y with Some Eq => true | _ => false end.

(** [x != y]; true when an operand is NaN. *)
Definition fneb (x y : F) : bool := negb (feqb x y).

(** [x < y] *)
Definition fltb (x y : F) : bool :=
  match fcompare x y with Some Lt => true | _ => false end.

(** [x <= y] *)
Definition fleb (x y : F) : bool :=
  match fcompare x y with Some (Lt | Eq) => true | _ => false end.

(** [x > y] *)
Definition fgtb (x y : F) : bool := fltb y x.
End Comparisons.

(** The two facts about comparison that the control flow of the script
    relies on: comparing with zero is antisymmetric, and the sentinel
    [np.inf] equals itself. *)
Class ArithLaws (F : Type) `{Arith F} : Prop := {
  fcompare_zero_antisym :
    forall x : F, fcompare fzero x = option_map CompOpp (fcompare x fzero);
  fcompare_inf_refl : fcompare finf finf = Some Eq
}.

(** *** IEEE-754 binary64 *)

Module B64.
Definition prec : Z := 53.
Definition emax : Z := 1024.

Definition of_Z (z : Z) : spec_float := binary_normalize prec emax z 0 false.

Definition is_finite (x : spec_float) : bool :=
  match x with
  | S754_zero _ | S754_finite _ _ _ => true
  | S754_infinity _ | S754_nan => false
  end.
End B64.

#[export] Instance binary64 : Arith spec_float := {
  fzero := S754_zero false;
  finf := S754_infinity false;
  fnan := S754_nan;
  of_nat n := B64.of_Z (Z.of_nat n);
  fadd := SFadd B64.prec B64.emax;
  fsub := SFsub B64.prec B64.emax;
  fmul := SFmul B64.prec B64.emax;
  fdiv := SFdiv B64.prec B64.emax;
  fcompare := SFcompare;
  fis_finite := B64.is_finite
}.

(** ** Text input (lines 17-21) *)

Definition is_lower (c : ascii) : bool :=
  (97 <=? nat_of_ascii c)%nat && (nat_of_ascii c <=? 122)%nat.

Definition upper_ascii (c : ascii) : ascii :=
  if is_lower c then ascii_of_nat (nat_of_ascii c - 32) else c.

(** Modelled from the spec: Python's [str.upper], which is not under src/.
    Ticker text is modelled as a string of ASCII characters; on those
    [str.upper] maps [a]..[z] to [A]..[Z] and leaves every other character,
    whitespace included, as it is. *)
Fixpoint upper (s : string) : string :=
  match s with
  | EmptyString => EmptyString
  | String c s' => String (upper_ascii c) (upper s')
  end.

(** The whitespace characters of ASCII: space, tab, line feed, vertical tab,
    form feed, carriage return. *)
Definition is_space (c : ascii) : bool :=
  match nat_of_ascii c with
  | 32 | 9 | 10 | 11 | 12 | 13 => true
  | _ => false
  end%nat.

Fixpoint lstrip (s : string) : string :=
  match s with
  | EmptyString => EmptyString
  | String c s' => if is_space c then lstrip s' else s
  end.

Definition string_rev (s : string) : string :=
  string_of_list_ascii (rev (list_ascii_of_string s)).

(** What "trimmed" means in the specification (Python's [str.strip]); the
    script itself never calls it. *)
Definition strip (s : string) : string :=
  string_rev (lstrip (string_rev (lstrip s))).

(** The normalisation the specification describes in section 4.1: trimmed
    and uppercased. *)
Definition spec_normalise (s : string) : string := upper (strip s).

(** [ticker_symbol = st.text_input(...).upper()]: the widget returns the text
    as typed and the script uppercases it. *)
Definition ticker_symbol (text_input : string) : string := upper text_input.

(** ** Period selection (lines 25-35) *)

Inductive period_name : Type :=
| Period1y | Period3mo | Period6mo | PeriodYtd | Period2y | Period5y
| PeriodMax.

Definition period_options (name : period_name) : string :=
  match name with
  | Period1y => "1y"
  | Period3mo => "3mo"
  | Period6mo => "6mo"
  | PeriodYtd => "ytd"
  | Period2y => "2y"
  | Period5y => "5y"
  | PeriodMax => "max"
  end.

(** ** Data *)

(** A row of [ticker_data.history(...)]: the date index and the [Close]
    column, the only column the script reads. *)
Record Quote (F : Type) : Type := { Date : Z; Close : F }.
Arguments Date {F} _.
Arguments Close {F} _.

(** [ticker_data.info], a dictionary; the script reads two keys, either of
    which may be missing or hold [None]. *)
Record Info (F : Type) : Type := {
  trailingEps : option F;
  forwardEps : option F
}.
Arguments trailingEps {F} _.
Arguments forwardEps {F} _.

(** A Python exception, with its text. *)
Inductive exn : Type := Exn (text : string).

(** The yfinance collaborator: [yf.Ticker(ticker).history(period=period)] and
    [yf.Ticker(ticker).info]; each returns or raises. *)
Record Yf (F : Type) : Type := {
  history : string -> string -> exn + list (Quote F);
  info : string -> exn + Info F
}.
Arguments history {F} _ _ _.
Arguments info {F} _ _.

(** The dataframe [df] of [load_data], column by column. *)
Record DataFrame (F : Type) : Type := {
  index : list Z;
  col_Close : list F;
  Price : list F;
  EPS : list F;
  PER : list F
}.
Arguments index {F} _.
Arguments col_Close {F} _.
Arguments Price {F} _.
Arguments EPS {F} _.
Arguments PER {F} _.

(** The three messages [load_data] returns in place of a dataframe (lines
    50, 71 and 85). *)
Inductive message : Type :=
| MsgNoPriceData
| MsgNoEPS
| MsgLoadFailed (e : exn).

(** What [load_data] logs: the two calls to yfinance, each [info.get], and
    each quotient [Price / EPS] that line 80 evaluates. *)
Inductive event (F : Type) : Type :=
| EvHistory (ticker period : string)
| EvInfo (ticker : string)
| EvGet (key : string)
| EvDiv (x y : F).
Arguments EvHistory {F} _ _.
Arguments EvInfo {F} _.
Arguments EvGet {F} _.
Arguments EvDiv {F} _ _.

(** [per_data_for_plot] with its two added columns, and the latest PER of
    the summary line. *)
Record Chart (F : Type) : Type := {
  data : DataFrame F;
  PER_MA : list F;
  Trendline : list F;
  current_per : F
}.
Arguments data {F} _.
Arguments PER_MA {F} _.
Arguments Trendline {F} _.
Arguments current_per {F} _.

(** What the page shows after the button is pressed: [st.error] (line 95),
    the warning of line 106, the chart, or the prompt of line 183. *)
Inductive Outcome (F : Type) : Type :=
| StError (m : message)
| StWarningNoPER
| StChart (c : Chart F)
| StPrompt.
Arguments StError {F} _.
Arguments StWarningNoPER {F}.
Arguments StChart {F} _.
Arguments StPrompt {F}.

(** The error kinds of the specification, as outcomes of the page. *)
Definition NoDataError {F : Type} : Outcome F := StError MsgNoPriceData.
Definition MissingEPSError {F : Type} : Outcome F := StError MsgNoEPS.
Definition NoValidPERError {F : Type} : Outcome F := StWarningNoPER.
Definition FetchError {F : Type} (e : exn) : Outcome F :=
  StError (MsgLoadFailed e).

(** ** Logged, fallible computations *)

(** A computation of the body of [load_data]: the events it performed and
    its result, a raised exception or a value. *)
Definition Run (F A : Type) : Type := list (event F) * (exn + A).

#[export] Instance Run_ret {F : Type} : MRet (Run F) :=
  fun A a => ([], inr a).

#[export] Instance Run_bind {F : Type} : MBind (Run F) :=
  fun A B k m =>
    match m with
    | (l, inl e) => (l, inl e)
    | (l, inr a) => let '(l', r) := k a in (l ++ l', r)
    end.

(** An operation of the outside world: log it, then return or raise. *)
Definition call {F A : Type} (ev : event F) (r : exn + A) : Run F A :=
  ([ev], r).

(** [try: body except Exception as e: handler e] *)
Definition try_except {F A : Type} (body : Run F A) (handler : exn -> A)
  : list (event F) * A :=
  match body with
  | (l, inl e) => (l, handler e)
  | (l, inr a) => (l, a)
  end.

(** ** The script *)

Section Program.
Context {F : Type} `{Arith F}.

(** *** numpy and pandas operations on columns *)

(** [np.where(cond, xs, y)] with a scalar [y]. *)
Definition np_where (cond : list bool) (xs : list F) (y : F) : list F :=
  zip_with (fun (c : bool) x => if c then x else y) cond xs.

(** [frame[mask]]: the entries of a column at the positions where the
    boolean mask holds. *)
Fixpoint select {A : Type} (mask : list bool) (col : list A) : list A :=
  match mask, col with
  | b :: mask', x :: col' =>
      if b then x :: select mask' col' else select mask' col'
  | _, _ => []
  end.

Definition select_rows (mask : list bool) (df : DataFrame F) : DataFrame F :=
  {| index := select mask (index df);
     col_Close := select mask (col_Close df);
     Price := select mask (Price df);
     EPS := select mask (EPS df);
     PER := select mask (PER df) |}.

(** [df.empty] *)
Definition empty (df : DataFrame F) : bool :=
  match index df with [] => true | _ => false end.

(** Sum from left to right, and the arithmetic mean. *)
Definition fsum (xs : list F) : F := foldl fadd fzero xs.

Definition fmean (xs : list F) : F := fdiv (fsum xs) (of_nat (length xs)).

(** The trailing window of [w] entries that ends at position [i]. *)
Definition window_at (w i : nat) (xs : list F) : list F :=
  take w (drop (i + 1 - w) xs).

(** Modelled from the spec: pandas' [Series.rolling(window=w).mean()],
    which is not under src/.  With the default [min_periods = w] a
    position has a value only when its window holds [w] observations;
    NaN and infinite entries are not observations.  The value is the mean
    of the window; otherwise the position holds NaN. *)
Definition rolling_mean (w : nat) (xs : list F) : list F :=
  (fun i =>
     if (i + 1 <? w)%nat then fnan
     else
       let win := window_at w i xs in
       if forallb fis_finite win then fmean win else fnan)
  <$> seq 0 (length xs).

(** [np.arange(n)], as the floats it becomes in [slope * x_values]. *)
Definition arange (n : nat) : list F := of_nat <$> seq 0 n.

(** Modelled from the spec: scipy's [linregress(x, y)], which is not under
    src/: the ordinary least-squares line, slope = cov(x, y) / var(x) and
    intercept = mean(y) - slope * mean(x).  Of the five results the
    script uses the first two. *)
Definition linregress (x y : list F) : F * F :=
  let xmean := fmean x in
  let ymean := fmean y in
  let dx := (fun v => fsub v xmean) <$> x in
  let dy := (fun v => fsub v ymean) <$> y in
  let ssxm := fmean (zip_with fmul dx dx) in
  let ssxym := fmean (zip_with fmul dx dy) in
  let slope := fdiv ssxym ssxm in
  let intercept := fsub ymean (fmul slope xmean) in
  (slope, intercept).

(** *** [load_data] (lines 41-85) *)

(** [info.get(key)] *)
Definition info_get (i : Info F) (key : string) : Run F (option F) :=
  call (EvGet key)
    (inr (if String.eqb key "trailingEps" then trailingEps i
          else if String.eqb key "forwardEps" then forwardEps i
          else None)).

(** [eps is None or eps == 0] *)
Definition none_or_zero (eps : option F) : bool :=
  match eps with
  | None => true
  | Some e => feqb e fzero
  end.

(** [df['Price'] / df['EPS']]: the quotient of two columns.  numpy
    evaluates it for every row, whatever [np.where] selects afterwards. *)
Definition column_div (xs ys : list F) : Run F (list F) :=
  (zip_with EvDiv xs ys, inr (zip_with fdiv xs ys)).

(** Lines 45-82, the body of the [try]. *)
Definition load_data_try (yf : Yf F) (ticker period : string)
  : Run F (option (DataFrame F) * option message) :=
  hist ← call (EvHistory ticker period) (history yf ticker period);
  match hist with
  | [] => mret (None, Some MsgNoPriceData)
  | _ :: _ =>
      i ← call (EvInfo ticker) (info yf ticker);
      eps ← info_get i "trailingEps";
      eps ← (if none_or_zero eps then info_get i "forwardEps"
             else mret eps);
      match eps with
      | None => mret (None, Some MsgNoEPS)
      | Some e =>
          if feqb e fzero then mret (None, Some MsgNoEPS)
          else
            let close := Close <$> hist in
            let price := close in
            let eps_col := replicate (length hist) e in
            quot ← column_div price eps_col;
            let per :=
              np_where ((fun x => fgtb x fzero) <$> eps_col) quot finf in
            mret (Some {| index := Date <$> hist;
                          col_Close := close;
                          Price := price;
                          EPS := eps_col;
                          PER := per |}, None)
      end
  end.

(** [load_data]: the body, with any exception turned into the message of
    line 85. *)
Definition load_data (yf : Yf F) (ticker period : string)
  : list (event F) * (option (DataFrame F) * option message) :=
  try_except (load_data_try yf ticker period)
             (fun e => (None, Some (MsgLoadFailed e))).

(** The value of [eps] after line 68. *)
Definition resolve_eps (i : Info F) : option F :=
  if none_or_zero (trailingEps i) then forwardEps i else trailingEps i.

(** *** [@st.cache_data] (line 40) *)

(** The decorator: results are memoised by the arguments [(ticker,
    period)]; a hit returns the stored result and runs nothing. *)
Definition cache_data {R : Type}
    (f : string -> string -> list (event F) * R)
    (cache : gmap (string * string) R) (ticker period : string)
  : list (event F) * R * gmap (string * string) R :=
  match cache !! (ticker, period) with
  | Some r => ([], r, cache)
  | None =>
      let '(l, r) := f ticker period in
      (l, r, <[(ticker, period) := r]> cache)
  end.

(** *** The chart (lines 100-139) *)

Definition window : nat := 20.

(** Lines 120-139: the moving average and the trend line of the rows to
    plot. *)
Definition add_overlays (per_data_for_plot : DataFrame F) : Chart F :=
  let per := PER per_data_for_plot in
  let per_ma := rolling_mean window per in
  let x_values := arange (length (index per_data_for_plot)) in
  let '(slope, intercept) := linregress x_values per in
  let trendline := (fun x => fadd intercept (fmul slope x)) <$> x_values in
  {| data := per_data_for_plot;
     PER_MA := per_ma;
     Trendline := trendline;
     current_per := default fnan (last per) |}.

(** Lines 94-183: what the page shows for a result of [load_data].  Each
    message is a non-empty string, so [if error_message:] holds exactly
    when a message was returned. *)
Definition render (result : option (DataFrame F) * option message)
  : Outcome F :=
  let '(data_df, error_message) := result in
  match error_message, data_df with
  | Some m, _ => StError m
  | None, Some df =>
      if empty df then StPrompt
      else
        let per_data_for_plot :=
          select_rows ((fun p => fneb p finf) <$> PER df) df in
        if empty per_data_for_plot then StWarningNoPER
        else StChart (add_overlays per_data_for_plot)
  | None, None => StPrompt
  end.

(** The builder of the specification: fetch, compute, and decide what to
    show (lines 92-139, without the cache). *)
Definition build (yf : Yf F) (ticker period : string) : Outcome F :=
  render (snd (load_data yf ticker period)).

(** One press of the button (lines 88-183), given the text typed and the
    period chosen: the events performed, the outcome shown, and the cache
    afterwards. *)
Definition click (yf : Yf F)
    (cache : gmap (string * string) (option (DataFrame F) * option message))
    (text_input : string) (selected_period_name : period_name)
  : list (event F) * Outcome F
    * gmap (string * string) (option (DataFrame F) * option message) :=
  let ticker := ticker_symbol text_input in
  let period := period_options selected_period_name in
  let '(l, result, cache') := cache_data (load_data yf) cache ticker period in
  (l, render result, cache').

(** *** Descriptions used in the statements *)

(** The events of lines 66-68: [trailingEps] is always read, [forwardEps]
    only on the fallback. *)
Definition eps_events (i : Info F) : list (event F) :=
  EvGet "trailingEps"
  :: (if none_or_zero (trailingEps i) then [EvGet "forwardEps"] else []).

(** The quotients line 80 evaluates for a history and an EPS figure. *)
Definition div_events (hist : list (Quote F)) (e : F) : list (event F) :=
  (fun q => EvDiv (Close q) e) <$> hist.

(** The dataframe lines 74-80 build from a history and an EPS figure. *)
Definition frame_of (hist : list (Quote F)) (e : F) : DataFrame F :=
  {| index := Date <$> hist;
     col_Close := Close <$> hist;
     Price := Close <$> hist;
     EPS := replicate (length hist) e;
     PER := if fgtb e fzero then (fun q => fdiv (Close q) e) <$> hist
            else replicate (length hist) finf |}.
End Program.

(** ** Example inputs *)

Module Examples.
(** Rows on consecutive days with the given closing prices. *)
Definition quotes {F : Type} (closes : list F) : list (Quote F) :=
  imap (fun j c => {| Date := Z.of_nat j; Close := c |}) closes.

(** A source that returns the same rows and the same two EPS figures for
    every ticker and period. *)
Definition world {F : Type} (closes : list F) (trailing forward : option F)
  : Yf F :=
  {| history := fun _ _ => inr (quotes closes);
     info := fun _ => inr {| trailingEps := trailing;
                             forwardEps := forward |} |}.

Definition b (z : Z) : spec_float := B64.of_Z z.

(** 0.5 and the largest finite binary64 number. *)
Definition half : spec_float := S754_finite false 4503599627370496 (-53).
Definition max_float : spec_float := S754_finite false 9007199254740991 971.

(** Scenarios A to D of the specification, section 8. *)
Definition scenario_A : Yf spec_float :=
  world [b 100; b 110] (Some (b 10)) None.
Definition scenario_B : Yf spec_float :=
  world [b 100; b 110] (Some (b 0)) None.
Definition scenario_C : Yf spec_float :=
  world [] (Some (b 10)) None.
Definition scenario_D : Yf spec_float :=
  world (replicate 25 (b 50)) (Some (b 5)) None.

(** A loss-making issuer: negative trailing EPS, positive forward EPS. *)
Definition negative_trailing : Yf spec_float :=
  world [b 100; b 110] (Some (b (-10))) (Some (b 10)).

(** No trailing figure, a forward figure. *)
Definition forward_only : Yf spec_float :=
  world [b 100; b 110] None (Some (b 10)).

(** A first close whose quotient by 0.5 exceeds the binary64 range. *)
Definition overflowing : Yf spec_float :=
  world [max_float; b 100] (Some half) None.

(** A row without a closing price (NaN), as a source may deliver it. *)
Definition nan_close : Yf spec_float :=
  world [b 100; S754_nan] (Some (b 10)) None.

(** A source that agrees with scenario A on the ticker AAPL and has nothing
    for any other ticker. *)
Definition scenario_A_only_aapl : Yf spec_float :=
  {| history := fun t p =>
       if String.eqb t "AAPL" then history scenario_A t p else inr [];
     info := fun t =>
       if String.eqb t "AAPL" then info scenario_A t
       else inl (Exn "no such ticker") |}.

End Examples.

(** ** Further descriptions and example inputs *)

Section PlottedRows.
Context {F : Type} `{Arith F}.

(** Line 103 on a frame built with a positive EPS: the quotes whose quotient
    differs from [np.inf], in their order. *)
Definition kept_rows (hist : list (Quote F)) (e : F) : list (Quote F) :=
  List.filter (fun q => fneb (fdiv (Close q) e) finf) hist.
End PlottedRows.

Module Cases.
(** A source whose history request raises. *)
Definition history_raises : Yf spec_float :=
  {| history := fun _ _ => inl (Exn "connection reset");
     info := fun _ => inr {| trailingEps := Some (Examples.b 10);
                             forwardEps := None |} |}.

(** A source that returns rows and whose [info] raises. *)
Definition info_raises : Yf spec_float :=
  {| history := fun _ _ =>
       inr (Examples.quotes [Examples.b 100; Examples.b 110]);
     info := fun _ => inl (Exn "no fundamentals") |}.

(** A NaN trailing figure beside a usable forward figure. *)
Definition nan_trailing : Yf spec_float :=
  Examples.world [Examples.b 100; Examples.b 110]
                 (Some S754_nan) (Some (Examples.b 10)).

(** A source that raises for every request. *)
Definition offline : Yf spec_float :=
  {| history := fun _ _ => inl (Exn "offline");
     info := fun _ => inl (Exn "offline") |}.

(** Twelve closes of 50 with EPS 5: fewer rows than the window. *)
Definition short_history : Yf spec_float :=
  Examples.world (replicate 12 (Examples.b 50)) (Some (Examples.b 5)) None.

(** Twenty-five rows of which the fourth has no closing price. *)
Definition gap_closes : list spec_float :=
  replicate 3 (Examples.b 50) ++ [S754_nan] ++ replicate 21 (Examples.b 50).

Definition gap_history : Yf spec_float :=
  Examples.world gap_closes (Some (Examples.b 5)) None.

(** Closes 10, 11, 13, 12 with EPS 7: a PER column that is not on a line. *)
Definition uneven : Yf spec_float :=
  Examples.world [Examples.b 10; Examples.b 11; Examples.b 13; Examples.b 12]
                 (Some (Examples.b 7)) None.
End Cases.

(** * Properties *)

(** ** binary64 satisfies the comparison laws *)

#[export] Instance binary64_laws : ArithLaws spec_float.
Proof.
  split.
  - intros [s|s| |s m e]; try destruct s; reflexivity.
  - reflexivity.
Qed.

(** ** Comparison with zero and with the sentinel *)

Section ComparisonFacts.
Context {F : Type} `{ArithLaws F}.

Lemma fgtb_zero_not_zero (x : F) : fgtb x fzero = true -> feqb x fzero = false.
Proof.
  unfold fgtb, fltb, feqb. rewrite fcompare_zero_antisym.
  destruct (fcompare x fzero) as [[]|]; cbn; congruence.
Qed.


Lemma fleb_zero_not_gtb (x : F) : fleb x fzero = true -> fgtb x fzero = false.
Proof.
  unfold fgtb, fltb, fleb. rewrite fcompare_zero_antisym.
  destruct (fcompare x fzero) as [[]|]; cbn; congruence.
Qed.

Lemma fneb_inf_inf : fneb (finf : F) finf = false.
Proof. unfold fneb, feqb. now rewrite fcompare_inf_refl. Qed.
End ComparisonFacts.

(** ** Columns *)

Section Columns.
Context {F : Type} `{Arith F}.

Lemma zip_with_replicate_r {A B C : Type}
    (f : A -> B -> C) (l : list A) (c : B) :
  zip_with f l (replicate (length l) c) = (fun x => f x c) <$> l.
Proof. induction l as [|x l IH]; cbn; [reflexivity | now rewrite IH]. Qed.

(** A constant condition selects a whole column. *)
Lemma np_where_replicate (b : bool) (xs : list F) (y : F) :
  np_where (replicate (length xs) b) xs y
  = if b then xs else replicate (length xs) y.
Proof.
  unfold np_where. induction xs as [|x xs IH]; cbn.
  - now destruct b.
  - rewrite IH. now destruct b.
Qed.

Lemma select_all_false {A : Type} (n : nat) (col : list A) :
  select (replicate n false) col = [].
Proof.
  revert col. induction n as [|n IH]; intros [|x col]; cbn; auto.
Qed.

Lemma select_all_true {A : Type} (col : list A) :
  select (replicate (length col) true) col = col.
Proof. induction col as [|x col IH]; cbn; [reflexivity | now rewrite IH]. Qed.

(** Line 80, for a history and one EPS figure. *)
Lemma per_column (hist : list (Quote F)) (e : F) :
  np_where ((fun x => fgtb x fzero) <$> replicate (length hist) e)
           (zip_with fdiv (Close <$> hist) (replicate (length hist) e)) finf
  = PER (frame_of hist e).
Proof.
  rewrite fmap_replicate.
  replace (zip_with fdiv (Close <$> hist) (replicate (length hist) e))
    with ((fun q => fdiv (Close q) e) <$> hist).
  - pose proof (np_where_replicate (fgtb e fzero)
                  ((fun q => fdiv (Close q) e) <$> hist) finf) as E.
    rewrite length_fmap in E. exact E.
  - rewrite <- (length_fmap Close hist), zip_with_replicate_r.
    now rewrite <- list_fmap_compose.
Qed.

Lemma div_column (hist : list (Quote F)) (e : F) :
  zip_with EvDiv (Close <$> hist) (replicate (length hist) e)
  = div_events hist e.
Proof.
  unfold div_events.
  rewrite <- (length_fmap Close hist), zip_with_replicate_r.
  now rewrite <- list_fmap_compose.
Qed.
End Columns.

(** ** What [load_data] does, case by case *)

Section LoadData.
Context {F : Type} `{Arith F}.

Lemma resolve_eps_trailing (i : Info F) (x : F) :
  trailingEps i = Some x -> feqb x fzero = false -> resolve_eps i = Some x.
Proof. unfold resolve_eps. intros -> E. cbn. now rewrite E. Qed.


Lemma load_data_cases (yf : Yf F) (t p : string) :
  load_data yf t p =
  match history yf t p with
  | inl e => ([EvHistory t p], (None, Some (MsgLoadFailed e)))
  | inr [] => ([EvHistory t p], (None, Some MsgNoPriceData))
  | inr (q :: h) =>
      match info yf t with
      | inl e => ([EvHistory t p; EvInfo t], (None, Some (MsgLoadFailed e)))
      | inr i =>
          if none_or_zero (resolve_eps i)
          then (EvHistory t p :: EvInfo t :: eps_events i,
                (None, Some MsgNoEPS))
          else
            match resolve_eps i with
            | Some e =>
                (EvHistory t p :: EvInfo t
                 :: eps_events i ++ div_events (q :: h) e,
                 (Some (frame_of (q :: h) e), None))
            | None =>
                (EvHistory t p :: EvInfo t :: eps_events i,
                 (None, Some MsgNoEPS))
            end
      end
  end.
Proof.
  unfold load_data, load_data_try, try_except, call, mbind, Run_bind.
  destruct (history yf t p) as [e|[|q h]]; [reflexivity..|].
  destruct (info yf t) as [e|i]; [reflexivity|].
  unfold info_get, call, eps_events, resolve_eps. cbn [String.eqb].
  cbn -[frame_of div_events none_or_zero fmap replicate np_where zip_with length].
  destruct (none_or_zero (trailingEps i)) eqn:Et.
  - cbn -[frame_of div_events none_or_zero fmap replicate np_where zip_with length].
    destruct (forwardEps i) as [e|] eqn:Ef; [|reflexivity].
    cbn [none_or_zero]. destruct (feqb e fzero) eqn:Ez; [reflexivity|].
    cbn -[frame_of div_events fmap replicate np_where zip_with length].
    rewrite per_column, div_column, ?app_nil_r. reflexivity.
  - cbn -[frame_of div_events none_or_zero fmap replicate np_where zip_with length].
    destruct (trailingEps i) as [e|] eqn:Ef; [|discriminate].
    cbn [none_or_zero] in *. rewrite Et.
    cbn -[frame_of div_events fmap replicate np_where zip_with length].
    rewrite per_column, div_column, ?app_nil_r. reflexivity.
Qed.
End LoadData.

Section LoadDataFacts.
Context {F : Type} `{Arith F}.

(** With rows and an [info] record, [load_data] succeeds exactly when the
    resolved EPS is present and not zero, and then returns [frame_of]. *)
Lemma load_data_frame (yf : Yf F) (t p : string) (hist : list (Quote F))
    (i : Info F) (e : F) :
  history yf t p = inr hist -> hist <> [] -> info yf t = inr i ->
  resolve_eps i = Some e -> feqb e fzero = false ->
  load_data yf t p =
    (EvHistory t p :: EvInfo t :: eps_events i ++ div_events hist e,
     (Some (frame_of hist e), None)).
Proof.
  intros Hh Hne Hi He Hz. rewrite load_data_cases, Hh.
  destruct hist as [|q h]; [congruence|].
  rewrite Hi, He. cbn [none_or_zero]. now rewrite Hz.
Qed.

Lemma load_data_no_eps (yf : Yf F) (t p : string) (hist : list (Quote F))
    (i : Info F) :
  history yf t p = inr hist -> hist <> [] -> info yf t = inr i ->
  none_or_zero (resolve_eps i) = true ->
  load_data yf t p =
    (EvHistory t p :: EvInfo t :: eps_events i, (None, Some MsgNoEPS)).
Proof.
  intros Hh Hne Hi He. rewrite load_data_cases, Hh.
  destruct hist as [|q h]; [congruence|].
  now rewrite Hi, He.
Qed.

(** Whatever [load_data] returns as a dataframe is [frame_of] of the rows
    fetched and of a resolved EPS that is not zero. *)
Lemma load_data_returns (yf : Yf F) (t p : string) (df : DataFrame F)
    (m : option message) :
  snd (load_data yf t p) = (Some df, m) ->
  exists hist i e,
    history yf t p = inr hist /\ hist <> [] /\ info yf t = inr i
    /\ resolve_eps i = Some e /\ feqb e fzero = false
    /\ df = frame_of hist e /\ m = None.
Proof.
  rewrite load_data_cases.
  destruct (history yf t p) as [x|[|q h]]; [discriminate..|].
  destruct (info yf t) as [x|i]; [discriminate|].
  destruct (resolve_eps i) as [e|] eqn:He; cbn [none_or_zero];
    [|discriminate].
  destruct (feqb e fzero) eqn:Hz; [discriminate|].
  cbn. intros [= <- <-]. exists (q :: h), i, e. repeat split; congruence.
Qed.

(** Every quotient [load_data] evaluates has the resolved EPS as its
    divisor, and that EPS is not zero. *)
Lemma load_data_divisors (yf : Yf F) (t p : string) (x y : F) :
  In (EvDiv x y) (fst (load_data yf t p)) ->
  feqb y fzero = false
  /\ exists i, info yf t = inr i /\ resolve_eps i = Some y.
Proof.
  rewrite load_data_cases.
  destruct (history yf t p) as [e|[|q h]];
    [cbn; intuition discriminate..|].
  destruct (info yf t) as [e|i]; [cbn; intuition discriminate|].
  assert (Hev : ~ In (EvDiv x y) (eps_events i)).
  { unfold eps_events. destruct (none_or_zero (trailingEps i)); cbn;
      intuition discriminate. }
  destruct (resolve_eps i) as [e|] eqn:He; cbn [none_or_zero].
  - destruct (feqb e fzero) eqn:Hz.
    + cbn [fst]. intros [|[|]]; [discriminate..|tauto].
    + cbn [fst]. intros [|[|Hin]]; [discriminate..|].
      apply in_app_or in Hin as [|Hin]; [tauto|].
      unfold div_events in Hin. apply list_elem_of_In in Hin.
      apply list_elem_of_fmap in Hin as (q' & [= -> ->] & _).
      split; [exact Hz | now exists i].
  - cbn [fst]. intros [|[|]]; [discriminate..|tauto].
Qed.
End LoadDataFacts.

(** ** What the page shows *)

Section Render.
Context {F : Type} `{ArithLaws F}.

Lemma frame_not_empty (hist : list (Quote F)) (e : F) :
  hist <> [] -> empty (frame_of hist e) = false.
Proof. destruct hist; [congruence | reflexivity]. Qed.

(** With an EPS that is not positive every row holds the sentinel, the
    mask of line 103 rejects every row, and the page warns. *)
Lemma render_not_positive (hist : list (Quote F)) (e : F) :
  hist <> [] -> fgtb e fzero = false ->
  render (Some (frame_of hist e), None) = StWarningNoPER.
Proof.
  intros Hne Hgt. unfold render. rewrite frame_not_empty by exact Hne.
  unfold select_rows, empty. cbn [index PER frame_of]. rewrite Hgt.
  rewrite fmap_replicate, fneb_inf_inf.
  now rewrite select_all_false.
Qed.

(** A chart is always [add_overlays] of the rows that passed the mask. *)
Lemma render_chart (r : option (DataFrame F) * option message) (c : Chart F) :
  render r = StChart c ->
  exists df,
    r = (Some df, None)
    /\ c = add_overlays (select_rows ((fun x => fneb x finf) <$> PER df) df).
Proof.
  destruct r as [[df|] [m|]]; cbn; try discriminate.
  destruct (empty df); [discriminate|].
  destruct (empty (select_rows _ df)); [discriminate|].
  intros [= <-]. now exists df.
Qed.
End Render.

(** ** The overlays of the chart *)

Section Overlays.
Context {F : Type} `{Arith F}.

Lemma add_overlays_data (df : DataFrame F) : data (add_overlays df) = df.
Proof. unfold add_overlays. now destruct (linregress _ _). Qed.

Lemma add_overlays_PER_MA (df : DataFrame F) :
  PER_MA (add_overlays df) = rolling_mean window (PER df).
Proof. unfold add_overlays. now destruct (linregress _ _). Qed.

Lemma add_overlays_Trendline (df : DataFrame F) :
  Trendline (add_overlays df)
  = (fun x =>
       fadd (snd (linregress (arange (length (index df))) (PER df)))
            (fmul (fst (linregress (arange (length (index df))) (PER df))) x))
    <$> arange (length (index df)).
Proof. unfold add_overlays. now destruct (linregress _ _). Qed.

Lemma rolling_mean_length (w : nat) (xs : list F) :
  length (rolling_mean w xs) = length xs.
Proof. unfold rolling_mean. now rewrite length_fmap, length_seq. Qed.

Lemma rolling_mean_lookup (w i : nat) (xs : list F) :
  (i < length xs)%nat ->
  rolling_mean w xs !! i
  = Some (if (i + 1 <? w)%nat then fnan
          else if forallb fis_finite (window_at w i xs)
               then fmean (window_at w i xs) else fnan).
Proof.
  intros Hi. unfold rolling_mean.
  now rewrite list_lookup_fmap, lookup_seq_lt by exact Hi.
Qed.

(** The window that ends at [i] holds the [w] entries up to and including
    entry [i]. *)
Lemma window_at_length (w i : nat) (xs : list F) :
  (w <= i + 1)%nat -> (i < length xs)%nat -> length (window_at w i xs) = w.
Proof.
  intros Hw Hi. unfold window_at. rewrite length_take, length_drop. lia.
Qed.

Lemma window_at_lookup (w i k : nat) (xs : list F) :
  (k < w)%nat -> window_at w i xs !! k = xs !! (i + 1 - w + k)%nat.
Proof.
  intros Hk. unfold window_at.
  now rewrite lookup_take_lt, lookup_drop by exact Hk.
Qed.

Lemma arange_lookup (n j : nat) :
  (j < n)%nat -> (arange n : list F) !! j = Some (of_nat j).
Proof.
  intros Hj. unfold arange.
  now rewrite list_lookup_fmap, lookup_seq_lt by exact Hj.
Qed.

Lemma arange_length (n : nat) : length (arange n : list F) = n.
Proof. unfold arange. now rewrite length_fmap, length_seq. Qed.

(** Every value of the trend line comes from the one pair that
    [linregress] returned for the whole column. *)
Lemma trendline_lookup (df : DataFrame F) (j : nat) :
  (j < length (index df))%nat ->
  Trendline (add_overlays df) !! j
  = Some (fadd (snd (linregress (arange (length (index df))) (PER df)))
               (fmul (fst (linregress (arange (length (index df))) (PER df)))
                     (of_nat j))).
Proof.
  intros Hj. rewrite add_overlays_Trendline, list_lookup_fmap.
  now rewrite arange_lookup by exact Hj.
Qed.

Lemma trendline_length (df : DataFrame F) :
  length (Trendline (add_overlays df)) = length (index df).
Proof. now rewrite add_overlays_Trendline, length_fmap, arange_length. Qed.
End Overlays.

(** ** The log of [load_data], the cache, and the text input *)

Section Log.
Context {F : Type} `{Arith F}.

(** Every event of [load_data yf t p] is a request for [t] and [p], a read
    of [info], or a quotient. *)
Lemma load_data_log (yf : Yf F) (t p : string) (ev : event F) :
  In ev (fst (load_data yf t p)) ->
  ev = EvHistory t p \/ ev = EvInfo t
  \/ (exists k, ev = EvGet k) \/ (exists x y, ev = EvDiv x y).
Proof.
  assert (Heps : forall i, In ev (eps_events i) -> exists k, ev = EvGet k).
  { intros i. unfold eps_events.
    destruct (none_or_zero (trailingEps i)); cbn; intros Hin;
      repeat destruct Hin as [<-|Hin]; try contradiction; eauto. }
  rewrite load_data_cases.
  destruct (history yf t p) as [e|[|q h]];
    [cbn; intuition auto..|].
  destruct (info yf t) as [e|i]; [cbn; intuition auto|].
  destruct (none_or_zero (resolve_eps i));
    [|destruct (resolve_eps i) as [e|]]; cbn [fst];
    intros [<-|[<-|Hin]]; auto.
  - right. right. left. eauto.
  - apply in_app_or in Hin as [Hin|Hin].
    + right. right. left. eauto.
    + unfold div_events in Hin.
      apply list_elem_of_In, list_elem_of_fmap in Hin as (q' & -> & _).
      right. right. right. eauto.
  - right. right. left. eauto.
Qed.

(** The first thing [load_data] does is ask for the history. *)
Lemma load_data_first (yf : Yf F) (t p : string) :
  hd_error (fst (load_data yf t p)) = Some (EvHistory t p).
Proof.
  rewrite load_data_cases.
  destruct (history yf t p) as [e|[|q h]]; [reflexivity..|].
  destruct (info yf t) as [e|i]; [reflexivity|].
  destruct (none_or_zero (resolve_eps i));
    [|destruct (resolve_eps i)]; reflexivity.
Qed.

Lemma cache_data_miss {R : Type} (f : string -> string -> list (event F) * R)
    (cache : gmap (string * string) R) (t p : string) :
  cache !! (t, p) = None ->
  cache_data f cache t p
  = (fst (f t p), snd (f t p), <[(t, p) := snd (f t p)]> cache).
Proof. unfold cache_data. intros ->. now destruct (f t p). Qed.

Lemma cache_data_hit {R : Type} (f : string -> string -> list (event F) * R)
    (cache : gmap (string * string) R) (t p : string) (r : R) :
  cache !! (t, p) = Some r -> cache_data f cache t p = ([], r, cache).
Proof. unfold cache_data. now intros ->. Qed.

(** After any call the cache holds the result that the call returned. *)
Lemma cache_data_stores {R : Type}
    (f : string -> string -> list (event F) * R)
    (cache : gmap (string * string) R) (t p : string) :
  snd (cache_data f cache t p) !! (t, p)
  = Some (snd (fst (cache_data f cache t p))).
Proof.
  destruct (cache !! (t, p)) as [r|] eqn:E.
  - now rewrite (cache_data_hit f cache t p r E).
  - rewrite (cache_data_miss f cache t p E). cbn.
    apply lookup_insert_eq.
Qed.
End Log.

Lemma upper_length (s : string) : String.length (upper s) = String.length s.
Proof. induction s as [|c s IH]; cbn; [reflexivity | now rewrite IH]. Qed.

Lemma upper_get (s : string) (n : nat) (c : ascii) :
  String.get n s = Some c -> String.get n (upper s) = Some (upper_ascii c).
Proof.
  revert n. induction s as [|d s IH]; intros [|n]; cbn; try discriminate.
  - now intros [= ->].
  - apply IH.
Qed.

Lemma upper_keeps_space (c : ascii) : is_space c = true -> upper_ascii c = c.
Proof.
  destruct c as [[] [] [] [] [] [] [] []]; try discriminate; reflexivity.
Qed.

(** * The properties of the specification *)

(** C1.  For a non-empty quote history and a resolved EPS [eps > 0],
    [load_data] returns a dataframe with one row per quote, in which the
    price of row [j] is the close of quote [j] and the PER of row [j] is the
    binary64 quotient of that price by [eps]. *)
Theorem per_is_price_over_eps
    (yf : Yf spec_float) (t p : string) (hist : list (Quote spec_float))
    (i : Info spec_float) (eps : spec_float) :
  history yf t p = inr hist -> hist <> [] -> info yf t = inr i ->
  resolve_eps i = Some eps -> fgtb eps fzero = true ->
  exists df,
    snd (load_data yf t p) = (Some df, None)
    /\ length (PER df) = length hist
    /\ forall (j : nat) (q : Quote spec_float),
         hist !! j = Some q ->
         Price df !! j = Some (Close q)
         /\ EPS df !! j = Some eps
         /\ PER df !! j = Some (SFdiv 53 1024 (Close q) eps).
Proof.
  intros Hh Hne Hi He Hgt. exists (frame_of hist eps).
  rewrite (load_data_frame yf t p hist i eps Hh Hne Hi He
             (fgtb_zero_not_zero eps Hgt)).
  cbn [snd PER Price EPS frame_of]. rewrite Hgt, length_fmap.
  split; [reflexivity|]. split; [reflexivity|].
  intros j q Hq. split; [|split].
  - now rewrite list_lookup_fmap, Hq.
  - apply lookup_replicate_2. eapply lookup_lt_Some; eauto.
  - now rewrite list_lookup_fmap, Hq.
Qed.

Lemma per_is_price_over_eps_witness :
  exists df,
    snd (load_data Examples.scenario_A "AAPL" "1y") = (Some df, None)
    /\ length (PER df) = 2%nat
    /\ forall (j : nat) (q : Quote spec_float),
         Examples.quotes [Examples.b 100; Examples.b 110] !! j = Some q ->
         Price df !! j = Some (Close q)
         /\ EPS df !! j = Some (Examples.b 10)
         /\ PER df !! j = Some (SFdiv 53 1024 (Close q) (Examples.b 10)).
Proof.
  apply (per_is_price_over_eps Examples.scenario_A "AAPL" "1y"
           (Examples.quotes [Examples.b 100; Examples.b 110])
           {| trailingEps := Some (Examples.b 10); forwardEps := None |}
           (Examples.b 10));
    [reflexivity | discriminate | reflexivity | reflexivity | reflexivity].
Defined.

(** Scenario A of the specification: closes 100 and 110 with EPS 10 give the
    PER column 10.0, 11.0. *)
Example scenario_A_per :
  snd (load_data Examples.scenario_A "AAPL" "1y")
  = (Some (frame_of (Examples.quotes [Examples.b 100; Examples.b 110])
                    (Examples.b 10)), None)
  /\ PER (frame_of (Examples.quotes [Examples.b 100; Examples.b 110])
                   (Examples.b 10))
     = [Examples.b 10; Examples.b 11].
Proof. split; reflexivity. Qed.

(** C2.  When EPS resolution ran and left no figure, or one that is [<= 0],
    the builder fails with [MissingEPSError] (no figure, or zero) or with
    [NoValidPERError] (negative); it never shows a chart. *)
Theorem nonpositive_eps_fails
    (yf : Yf spec_float) (t p : string) (hist : list (Quote spec_float))
    (i : Info spec_float) :
  history yf t p = inr hist -> hist <> [] -> info yf t = inr i ->
  (resolve_eps i = None
   \/ exists e, resolve_eps i = Some e /\ fleb e fzero = true) ->
  (build yf t p = MissingEPSError \/ build yf t p = NoValidPERError)
  /\ build yf t p
     = (if none_or_zero (resolve_eps i) then MissingEPSError
        else NoValidPERError)
  /\ forall c, build yf t p <> StChart c.
Proof.
  intros Hh Hne Hi He.
  assert (E : build yf t p
              = if none_or_zero (resolve_eps i) then MissingEPSError
                else NoValidPERError).
  { unfold build.
    destruct (none_or_zero (resolve_eps i)) eqn:Hz.
    - now rewrite (load_data_no_eps yf t p hist i Hh Hne Hi Hz).
    - destruct He as [He|(e & He & Hle)]; [now rewrite He in Hz|].
      rewrite He in Hz. cbn [none_or_zero] in Hz.
      rewrite (load_data_frame yf t p hist i e Hh Hne Hi He Hz).
      cbn [snd]. apply render_not_positive; [exact Hne|].
      now apply fleb_zero_not_gtb. }
  rewrite E. destruct (none_or_zero (resolve_eps i));
    (split; [auto | split; [reflexivity | discriminate]]).
Qed.

Lemma nonpositive_eps_fails_witness :
  (build Examples.negative_trailing "AAPL" "1y" = MissingEPSError
   \/ build Examples.negative_trailing "AAPL" "1y" = NoValidPERError)
  /\ build Examples.negative_trailing "AAPL" "1y"
     = (if none_or_zero (Some (Examples.b (-10))) then MissingEPSError
        else NoValidPERError)
  /\ forall c, build Examples.negative_trailing "AAPL" "1y" <> StChart c.
Proof.
  apply (nonpositive_eps_fails Examples.negative_trailing "AAPL" "1y"
           (Examples.quotes [Examples.b 100; Examples.b 110])
           {| trailingEps := Some (Examples.b (-10));
              forwardEps := Some (Examples.b 10) |});
    [reflexivity | discriminate | reflexivity |].
  right. exists (Examples.b (-10)). split; reflexivity.
Defined.

(** Scenario B of the specification: EPS zero and no forward figure. *)
Example scenario_B_missing_eps :
  build Examples.scenario_B "AAPL" "1y" = MissingEPSError.
Proof. reflexivity. Qed.



(** The fallback: without a trailing figure the forward one is used. *)
Example forward_only_per :
  fst (load_data Examples.forward_only "AAPL" "1y")
  = [EvHistory "AAPL" "1y"; EvInfo "AAPL"; EvGet "trailingEps";
     EvGet "forwardEps";
     EvDiv (Examples.b 100) (Examples.b 10);
     EvDiv (Examples.b 110) (Examples.b 10)]
  /\ option_map PER (fst (snd (load_data Examples.forward_only "AAPL" "1y")))
     = Some [Examples.b 10; Examples.b 11].
Proof. split; reflexivity. Qed.

(** C4.  When the fetched history is empty, [load_data] returns the message
    of line 50 as a value, the page shows it as an error, and the only
    thing that ran is the history request: [info] was not read, no EPS was
    looked up and nothing was divided. *)
Theorem empty_history_no_data (yf : Yf spec_float) (t p : string) :
  history yf t p = inr [] ->
  load_data yf t p = ([EvHistory t p], (None, Some MsgNoPriceData))
  /\ build yf t p = NoDataError
  /\ forall ev, In ev (fst (load_data yf t p)) -> ev = EvHistory t p.
Proof.
  intros Hh.
  assert (E : load_data yf t p
              = ([EvHistory t p], (None, Some MsgNoPriceData))).
  { now rewrite load_data_cases, Hh. }
  unfold build. rewrite E. split; [reflexivity|]. split; [reflexivity|].
  cbn. intros ev [<-|[]]. reflexivity.
Qed.

Lemma empty_history_no_data_witness :
  load_data Examples.scenario_C "AAPL" "1y"
  = ([EvHistory "AAPL" "1y"], (None, Some MsgNoPriceData))
  /\ build Examples.scenario_C "AAPL" "1y" = NoDataError
  /\ forall ev, In ev (fst (load_data Examples.scenario_C "AAPL" "1y")) ->
                ev = EvHistory "AAPL" "1y".
Proof.
  apply (empty_history_no_data Examples.scenario_C "AAPL" "1y").
  reflexivity.
Defined.

(** C5, as stated, fails: the test [EPS > 0] of line 80 does not stand
    before the division.  With a trailing EPS of -10 the test is false on
    every row, yet the quotient 100 / -10 is evaluated; [np.where] discards
    it afterwards and stores the sentinel. *)
Lemma negative_eps_is_divided :
  fgtb (Examples.b (-10)) fzero = false
  /\ In (EvDiv (Examples.b 100) (Examples.b (-10)))
        (fst (load_data Examples.negative_trailing "AAPL" "1y"))
  /\ option_map PER
       (fst (snd (load_data Examples.negative_trailing "AAPL" "1y")))
     = Some [finf; finf].
Proof.
  split; [reflexivity|].
  split; [do 3 right; left; reflexivity | reflexivity].
Qed.

(** C5, amended.  No quotient with a divisor equal to zero is ever
    evaluated, and what prevents it is EPS resolution, not the test of line
    80.  Every quotient [load_data] evaluates has the resolved EPS as its
    divisor, and that EPS is not equal to zero.  When the resolved EPS is
    absent or equal to zero, [load_data] returns the message of line 71 and
    has evaluated no quotient.  When it is not zero, whatever its sign, the
    quotient of every fetched row is evaluated. *)
Theorem no_division_by_zero_eps (yf : Yf spec_float) (t p : string) :
  (forall x y : spec_float,
      In (EvDiv x y) (fst (load_data yf t p)) ->
      SFeqb y (S754_zero false) = false
      /\ exists i, info yf t = inr i /\ resolve_eps i = Some y)
  /\ (forall (hist : list (Quote spec_float)) (i : Info spec_float),
        history yf t p = inr hist -> hist <> [] -> info yf t = inr i ->
        none_or_zero (resolve_eps i) = true ->
        snd (load_data yf t p) = (None, Some MsgNoEPS)
        /\ forall x y : spec_float,
             ~ In (EvDiv x y) (fst (load_data yf t p)))
  /\ (forall (hist : list (Quote spec_float)) (i : Info spec_float)
             (e : spec_float),
        history yf t p = inr hist -> hist <> [] -> info yf t = inr i ->
        resolve_eps i = Some e -> SFeqb e (S754_zero false) = false ->
        forall q : Quote spec_float,
          In q hist ->
          In (EvDiv (Close q) e) (fst (load_data yf t p))).
Proof.
  split; [|split].
  - intros x y Hin. exact (load_data_divisors yf t p x y Hin).
  - intros hist i Hh Hne Hi Hz.
    rewrite (load_data_no_eps yf t p hist i Hh Hne Hi Hz).
    split; [reflexivity|].
    intros x y. cbn [fst]. unfold eps_events.
    destruct (none_or_zero (trailingEps i)); cbn; intuition discriminate.
  - intros hist i e Hh Hne Hi He Hz q Hq.
    rewrite (load_data_frame yf t p hist i e Hh Hne Hi He Hz).
    cbn [fst]. right. right. apply in_or_app. right.
    unfold div_events. apply list_elem_of_In, list_elem_of_fmap.
    exists q. split; [reflexivity | now apply list_elem_of_In].
Qed.

Lemma no_division_by_zero_eps_witness :
  SFeqb (Examples.b 10) (S754_zero false) = false
  /\ snd (load_data Examples.scenario_B "AAPL" "1y") = (None, Some MsgNoEPS)
  /\ In (EvDiv (Examples.b 110) (Examples.b (-10)))
        (fst (load_data Examples.negative_trailing "AAPL" "1y")).
Proof.
  split; [|split].
  - destruct (no_division_by_zero_eps Examples.scenario_A "AAPL" "1y")
      as (Hdiv & _ & _).
    apply (Hdiv (Examples.b 100) (Examples.b 10)).
    do 3 right. left. reflexivity.
  - destruct (no_division_by_zero_eps Examples.scenario_B "AAPL" "1y")
      as (_ & Hzero & _).
    apply (Hzero (Examples.quotes [Examples.b 100; Examples.b 110])
                 {| trailingEps := Some (Examples.b 0); forwardEps := None |});
      [reflexivity | discriminate | reflexivity | reflexivity].
  - destruct (no_division_by_zero_eps Examples.negative_trailing "AAPL" "1y")
      as (_ & _ & Hall).
    apply (Hall (Examples.quotes [Examples.b 100; Examples.b 110])
                {| trailingEps := Some (Examples.b (-10));
                   forwardEps := Some (Examples.b 10) |}
                (Examples.b (-10))
                ltac:(reflexivity) ltac:(discriminate) ltac:(reflexivity)
                ltac:(reflexivity) ltac:(reflexivity)
                {| Date := 1; Close := Examples.b 110 |}).
    right. left. reflexivity.
Defined.

(** C6.  In every chart the moving-average column is as long as the PER
    column of the plotted rows; its first 19 positions hold NaN, and at
    every later position [i] whose window holds defined values it holds the
    arithmetic mean (sum divided by 20) of the 20 PER values at positions
    [i - 19] to [i] of the plotted rows. *)
Theorem moving_average_is_window_mean
    (yf : Yf spec_float) (t p : string) (c : Chart spec_float) :
  build yf t p = StChart c ->
  length (PER_MA c) = length (PER (data c))
  /\ forall i : nat,
       (i < length (PER (data c)))%nat ->
       ((i < 19)%nat -> PER_MA c !! i = Some fnan)
       /\ ((19 <= i)%nat ->
           forallb fis_finite (window_at 20 i (PER (data c))) = true ->
           length (window_at 20 i (PER (data c))) = 20%nat
           /\ (forall k : nat, (k < 20)%nat ->
                 window_at 20 i (PER (data c)) !! k
                 = PER (data c) !! (i - 19 + k)%nat)
           /\ PER_MA c !! i
              = Some (SFdiv 53 1024
                        (fsum (window_at 20 i (PER (data c))))
                        (of_nat 20))).
Proof.
  intros Hb. apply render_chart in Hb as (df & _ & ->).
  rewrite add_overlays_data, add_overlays_PER_MA.
  set (plot := select_rows _ df). unfold window.
  split; [apply rolling_mean_length|].
  intros i Hi. rewrite rolling_mean_lookup by exact Hi. split.
  - intros Hlt. destruct (Nat.ltb_spec (i + 1) 20); [reflexivity | lia].
  - intros Hge Hfin.
    pose proof (window_at_length 20 i (PER plot) ltac:(lia) Hi) as Hlen.
    split; [exact Hlen|]. split.
    + intros k Hk. rewrite window_at_lookup by exact Hk.
      f_equal. lia.
    + destruct (Nat.ltb_spec (i + 1) 20); [lia|].
      rewrite Hfin. unfold fmean. now rewrite Hlen.
Qed.

Lemma moving_average_is_window_mean_witness :
  PER_MA (add_overlays
            (frame_of (Examples.quotes (replicate 25 (Examples.b 50)))
                      (Examples.b 5))) !! 0%nat
  = Some fnan
  /\ PER_MA (add_overlays
               (frame_of (Examples.quotes (replicate 25 (Examples.b 50)))
                         (Examples.b 5))) !! 24%nat
     = Some (SFdiv 53 1024
               (fsum (window_at 20 24
                        (PER (data (add_overlays
                                      (frame_of
                                         (Examples.quotes
                                            (replicate 25 (Examples.b 50)))
                                         (Examples.b 5)))))))
               (of_nat 20)).
Proof.
  assert (Hb : build Examples.scenario_D "AAPL" "1y"
               = StChart
                   (add_overlays
                      (frame_of
                         (Examples.quotes (replicate 25 (Examples.b 50)))
                         (Examples.b 5))))
    by (vm_compute; reflexivity).
  destruct (moving_average_is_window_mean Examples.scenario_D "AAPL" "1y" _ Hb)
    as [_ Hall].
  split.
  - destruct (Hall 0%nat) as [H0 _]; [vm_compute; lia|].
    apply H0. lia.
  - destruct (Hall 24%nat) as [_ H24]; [vm_compute; lia|].
    destruct H24 as (_ & _ & Hma); [lia | vm_compute; reflexivity |].
    exact Hma.
Defined.

(** Scenario D of the specification: 25 closes of 50 with EPS 5.  The PER
    is 10.0 on every day, the moving average is undefined on the first 19
    days and 10.0 from the 20th on, and the fitted line has slope 0 and
    intercept 10. *)
Example scenario_D_chart :
  exists c,
    build Examples.scenario_D "AAPL" "1y" = StChart c
    /\ PER (data c) = replicate 25 (Examples.b 10)
    /\ PER_MA c = replicate 19 fnan ++ replicate 6 (Examples.b 10)
    /\ linregress (arange 25) (PER (data c)) = (fzero, Examples.b 10)
    /\ Trendline c = replicate 25 (Examples.b 10).
Proof.
  exists (add_overlays
            (frame_of (Examples.quotes (replicate 25 (Examples.b 50)))
                      (Examples.b 5))).
  split; [vm_compute; reflexivity|]. split; [vm_compute; reflexivity|].
  split; [vm_compute; reflexivity|]. split; vm_compute; reflexivity.
Qed.

(** C7, as stated, fails in float64: with closes 10, 11, 13, 12 and EPS 7
    the four values of the trend line come from one fit, yet the difference
    between the second and the first is not the difference between the
    third and the second; the two differ in the last places. *)
Lemma trendline_increments_differ :
  build Cases.uneven "AAPL" "1y"
  = StChart
      (add_overlays
         (frame_of (Examples.quotes
                      [Examples.b 10; Examples.b 11; Examples.b 13;
                       Examples.b 12])
                   (Examples.b 7)))
  /\ Trendline
       (add_overlays
          (frame_of (Examples.quotes
                       [Examples.b 10; Examples.b 11; Examples.b 13;
                        Examples.b 12])
                    (Examples.b 7)))
     = [S754_finite false 6626725165988016 (-52);
        S754_finite false 7141422266258930 (-52);
        S754_finite false 7656119366529843 (-52);
        S754_finite false 8170816466800757 (-52)]
  /\ SFsub 53 1024 (S754_finite false 7141422266258930 (-52))
                   (S754_finite false 6626725165988016 (-52))
     = S754_finite false 8235153604334624 (-56)
  /\ SFsub 53 1024 (S754_finite false 7656119366529843 (-52))
                   (S754_finite false 7141422266258930 (-52))
     = S754_finite false 8235153604334608 (-56)
  /\ S754_finite false 8235153604334624 (-56)
     <> S754_finite false 8235153604334608 (-56).
Proof.
  split; [vm_compute; reflexivity|]. split; [vm_compute; reflexivity|].
  split; [vm_compute; reflexivity|]. split; [vm_compute; reflexivity|].
  discriminate.
Qed.

(** C7, amended.  In every chart the trend line is one affine function of
    the zero-based row index, evaluated in float64: a single call of
    [linregress], on the whole PER column of the plotted rows against the
    indices 0, 1, 2, ..., yields the pair (slope, intercept); the value at
    index [j] is the rounded [intercept + slope * j]; and the difference
    between the values at two adjacent indices is the rounded difference of
    two such values, fixed by that one pair and [j].  Nothing is fitted
    again for a window or a row. *)
Theorem trendline_single_affine_fit
    (yf : Yf spec_float) (t p : string) (c : Chart spec_float) :
  build yf t p = StChart c ->
  exists slope intercept : spec_float,
    linregress (arange (length (index (data c)))) (PER (data c))
    = (slope, intercept)
    /\ length (Trendline c) = length (index (data c))
    /\ (forall j : nat,
          (j < length (index (data c)))%nat ->
          Trendline c !! j
          = Some (SFadd 53 1024 intercept (SFmul 53 1024 slope (of_nat j))))
    /\ (forall (j : nat) (a b : spec_float),
          Trendline c !! j = Some a -> Trendline c !! S j = Some b ->
          SFsub 53 1024 b a
          = SFsub 53 1024
              (SFadd 53 1024 intercept
                     (SFmul 53 1024 slope (of_nat (S j))))
              (SFadd 53 1024 intercept (SFmul 53 1024 slope (of_nat j)))).
Proof.
  intros Hb. apply render_chart in Hb as (df & _ & ->).
  rewrite add_overlays_data. set (plot := select_rows _ df).
  exists (fst (linregress (arange (length (index plot))) (PER plot))),
         (snd (linregress (arange (length (index plot))) (PER plot))).
  split; [now destruct (linregress _ _)|].
  split; [apply trendline_length|].
  split; [intros j Hj; exact (trendline_lookup plot j Hj)|].
  intros j a b Ha Hb.
  assert (Hj : (S j < length (index plot))%nat).
  { rewrite <- trendline_length. eapply lookup_lt_Some; eauto. }
  rewrite trendline_lookup in Ha, Hb by lia.
  injection Ha as <-. injection Hb as <-. reflexivity.
Qed.

Lemma trendline_single_affine_fit_witness :
  exists slope intercept : spec_float,
    linregress (arange 25) (replicate 25 (Examples.b 10))
    = (slope, intercept)
    /\ Trendline
         (add_overlays
            (frame_of (Examples.quotes (replicate 25 (Examples.b 50)))
                      (Examples.b 5))) !! 3%nat
       = Some (SFadd 53 1024 intercept
                     (SFmul 53 1024 slope (of_nat 3))).
Proof.
  assert (Hd : build Examples.scenario_D "AAPL" "1y"
               = StChart
                   (add_overlays
                      (frame_of
                         (Examples.quotes (replicate 25 (Examples.b 50)))
                         (Examples.b 5))))
    by (vm_compute; reflexivity).
  destruct (trendline_single_affine_fit Examples.scenario_D "AAPL" "1y" _ Hd)
    as (s & i & Hfit & _ & Hval & _).
  exists s, i. split.
  - rewrite <- Hfit. vm_compute. reflexivity.
  - apply Hval. vm_compute. lia.
Defined.

(** C9, as stated, fails: the text [" aapl "] reaches the source as
    [" AAPL "], with its blanks, whereas trimmed and uppercased it would be
    ["AAPL"]. *)
Lemma ticker_is_not_trimmed :
  ticker_symbol " aapl " = " AAPL "
  /\ spec_normalise " aapl " = "AAPL"
  /\ ticker_symbol " aapl " <> spec_normalise " aapl "
  /\ hd_error (fst (fst (click Examples.scenario_A ∅ " aapl " Period1y)))
     = Some (EvHistory " AAPL " "1y").
Proof.
  split; [reflexivity|]. split; [reflexivity|].
  split; [discriminate | reflexivity].
Qed.

(** C9, amended.  The ticker passed to the source is the text typed,
    uppercased character by character and not trimmed: it has the length of
    the text, its character at each position is the uppercase of the
    character typed there, and whitespace is left where it was.  Every
    request a press makes carries this ticker and the code of the selected
    period, and on a cache miss the press begins with that request. *)
Theorem ticker_is_uppercased
    (yf : Yf spec_float)
    (cache : gmap (string * string)
                  (option (DataFrame spec_float) * option message))
    (text : string) (period : period_name) :
  String.length (ticker_symbol text) = String.length text
  /\ (forall (n : nat) (ch : ascii),
        String.get n text = Some ch ->
        String.get n (ticker_symbol text) = Some (upper_ascii ch)
        /\ (is_space ch = true -> upper_ascii ch = ch))
  /\ (forall t' p' : string,
        In (EvHistory t' p') (fst (fst (click yf cache text period))) ->
        t' = ticker_symbol text /\ p' = period_options period)
  /\ (forall t' : string,
        In (EvInfo t') (fst (fst (click yf cache text period))) ->
        t' = ticker_symbol text)
  /\ (cache !! (ticker_symbol text, period_options period) = None ->
      hd_error (fst (fst (click yf cache text period)))
      = Some (EvHistory (ticker_symbol text) (period_options period))).
Proof.
  assert (Hlog : forall ev,
             In ev (fst (fst (click yf cache text period))) ->
             In ev (fst (load_data yf (ticker_symbol text)
                           (period_options period)))).
  { intros ev. unfold click, cache_data.
    destruct (cache !! _); [intros []|].
    now destruct (load_data yf _ _) as [l r]. }
  split; [apply upper_length|]. split; [|split; [|split]].
  - intros n ch Hn. split; [now apply upper_get | apply upper_keeps_space].
  - intros t' p' Hin. apply Hlog, load_data_log in Hin.
    destruct Hin as [[= -> ->]|[|[(k & ?)|(x & y & ?)]]];
      [auto | discriminate..].
  - intros t' Hin. apply Hlog, load_data_log in Hin.
    destruct Hin as [|[[= ->]|[(k & ?)|(x & y & ?)]]];
      [discriminate | reflexivity | discriminate..].
  - intros Hc. unfold click. rewrite (cache_data_miss _ _ _ _ Hc).
    cbn [fst]. apply load_data_first.
Qed.

Lemma ticker_is_uppercased_witness :
  String.get 0 (ticker_symbol " aapl ") = Some " "%char
  /\ String.get 1 (ticker_symbol " aapl ") = Some "A"%char
  /\ hd_error (fst (fst (click Examples.scenario_A ∅ " aapl " Period1y)))
     = Some (EvHistory (ticker_symbol " aapl ") "1y").
Proof.
  destruct (ticker_is_uppercased Examples.scenario_A ∅ " aapl " Period1y)
    as (_ & Hget & _ & _ & Hfirst).
  destruct (Hget 0%nat " "%char eq_refl) as [H0 Hsp].
  destruct (Hget 1%nat "a"%char eq_refl) as [H1 _].
  split; [|split].
  - rewrite H0, (Hsp eq_refl). reflexivity.
  - exact H1.
  - apply Hfirst. reflexivity.
Defined.

(** C10, as stated, fails: with EPS 0.5 and closes [max_float] and 100 the
    EPS is positive, yet the first quotient overflows to the very value
    used as sentinel while the second row holds 200.0.  The returned
    dataframe mixes a row that line 103 drops with a row that is plotted. *)
Lemma per_column_not_all_finite :
  exists df,
    snd (load_data Examples.overflowing "AAPL" "1y") = (Some df, None)
    /\ EPS df = [Examples.half; Examples.half]
    /\ fgtb Examples.half fzero = true
    /\ Price df = [Examples.max_float; Examples.b 100]
    /\ PER df = [finf; Examples.b 200]
    /\ fis_finite (finf : spec_float) = false
    /\ fis_finite (Examples.b 200) = true
    /\ exists c, build Examples.overflowing "AAPL" "1y" = StChart c
                 /\ PER (data c) = [Examples.b 200].
Proof.
  eexists. split; [reflexivity|].
  do 6 (split; [reflexivity|]).
  eexists. split; reflexivity.
Qed.

(** A NaN close with a positive EPS gives a NaN quotient: neither finite nor
    the sentinel, and line 103 keeps the row. *)
Example nan_close_is_plotted :
  exists c,
    build Examples.nan_close "AAPL" "1y" = StChart c
    /\ PER (data c) = [Examples.b 10; fnan]
    /\ fis_finite (fnan : spec_float) = false
    /\ fneb (fnan : spec_float) finf = true.
Proof.
  exists (add_overlays
            (frame_of (Examples.quotes [Examples.b 100; S754_nan])
                      (Examples.b 10))).
  split; [vm_compute; reflexivity|]. split; [vm_compute; reflexivity|].
  split; reflexivity.
Qed.

(** C10, amended.  A dataframe returned by [load_data] has one EPS figure,
    not equal to zero, on every row, and its prices are the closes.  Its PER
    column is produced by one branch for all rows: when the EPS is positive
    every PER is the binary64 quotient of the row's price by the EPS, and
    otherwise every PER is the sentinel [np.inf]. *)
Theorem per_column_one_branch
    (yf : Yf spec_float) (t p : string) (df : DataFrame spec_float)
    (m : option message) :
  snd (load_data yf t p) = (Some df, m) ->
  exists e : spec_float,
    EPS df = replicate (length (index df)) e
    /\ feqb e fzero = false
    /\ Price df = col_Close df
    /\ length (PER df) = length (index df)
    /\ (fgtb e fzero = true ->
        PER df = (fun x => SFdiv 53 1024 x e) <$> Price df)
    /\ (fgtb e fzero = false ->
        PER df = replicate (length (index df)) finf).
Proof.
  intros Hl.
  destruct (load_data_returns yf t p df m Hl)
    as (hist & i & e & _ & _ & _ & _ & Hz & -> & _).
  exists e. cbn [EPS Price col_Close PER index frame_of].
  rewrite length_fmap. split; [reflexivity|]. split; [exact Hz|].
  split; [reflexivity|]. split; [|split].
  - destruct (fgtb e fzero); [apply length_fmap | apply length_replicate].
  - intros ->. now rewrite <- list_fmap_compose.
  - now intros ->.
Qed.

Lemma per_column_one_branch_witness :
  exists e : spec_float,
    EPS (frame_of (Examples.quotes [Examples.b 100; Examples.b 110])
                  (Examples.b 10))
    = replicate 2 e
    /\ feqb e fzero = false.
Proof.
  assert (Hl : snd (load_data Examples.scenario_A "AAPL" "1y")
               = (Some (frame_of
                          (Examples.quotes [Examples.b 100; Examples.b 110])
                          (Examples.b 10)), None))
    by reflexivity.
  destruct (per_column_one_branch Examples.scenario_A "AAPL" "1y" _ _ Hl)
    as (e & He & Hz & _).
  exists e. exact (conj He Hz).
Defined.

(** * Further properties of the script *)

(** ** Boolean indexing *)

Section Select.
Context {F : Type} `{Arith F}.

Lemma select_fmap_filter {A : Type} (f : A -> bool) (l : list A) :
  select (f <$> l) l = List.filter f l.
Proof.
  induction l as [|x l IH]; cbn; [reflexivity|].
  rewrite IH. reflexivity.
Qed.

Lemma select_fmap {A B : Type} (g : A -> B) (mask : list bool) (l : list A) :
  select mask (g <$> l) = g <$> select mask l.
Proof.
  revert l. induction mask as [|b mask IH]; intros [|x l]; cbn;
    try reflexivity.
  destruct b; cbn; now rewrite IH.
Qed.

Lemma replicate_as_fmap {A B : Type} (l : list A) (y : B) :
  replicate (length l) y = (fun _ => y) <$> l.
Proof. induction l as [|x l IH]; cbn; [reflexivity | now rewrite IH]. Qed.

(** The PER column of a frame, row by row. *)
Lemma frame_of_PER (hist : list (Quote F)) (e : F) :
  PER (frame_of hist e)
  = (fun q => if fgtb e fzero then fdiv (Close q) e else finf) <$> hist.
Proof.
  cbn [PER frame_of]. destruct (fgtb e fzero); [reflexivity|].
  apply replicate_as_fmap.
Qed.

(** Selecting rows of a frame gives the frame of the selected quotes. *)
Lemma select_rows_frame_of (mask : list bool) (hist : list (Quote F)) (e : F) :
  select_rows mask (frame_of hist e) = frame_of (select mask hist) e.
Proof.
  unfold select_rows, frame_of. cbn [index col_Close Price EPS PER].
  rewrite !select_fmap.
  rewrite (replicate_as_fmap hist e), select_fmap, <- replicate_as_fmap.
  destruct (fgtb e fzero).
  - now rewrite select_fmap.
  - rewrite (replicate_as_fmap hist finf), select_fmap.
    now rewrite <- replicate_as_fmap.
Qed.
End Select.

Section Plotted.
Context {F : Type} `{ArithLaws F}.

(** Lines 96-107 on a frame of [load_data]: with a positive EPS the rows
    whose quotient is not [np.inf] are plotted, and the page warns when no
    row is left. *)
Lemma render_frame_positive (hist : list (Quote F)) (e : F) :
  hist <> [] -> fgtb e fzero = true ->
  render (Some (frame_of hist e), None)
  = match kept_rows hist e with
    | [] => StWarningNoPER
    | _ :: _ => StChart (add_overlays (frame_of (kept_rows hist e) e))
    end.
Proof.
  intros Hne Hgt. unfold render. rewrite frame_not_empty by exact Hne.
  rewrite select_rows_frame_of, frame_of_PER, Hgt.
  rewrite <- list_fmap_compose.
  change ((fun p => fneb p finf) ∘ (fun q => fdiv (Close q) e))
    with (fun q : Quote F => fneb (fdiv (Close q) e) finf).
  rewrite select_fmap_filter. fold (kept_rows hist e).
  destruct (kept_rows hist e); reflexivity.
Qed.

(** Every chart the builder shows comes from rows, an [info] record and a
    positive resolved EPS, and plots the kept rows. *)
Lemma build_chart (yf : Yf F) (t p : string) (c : Chart F) :
  build yf t p = StChart c ->
  exists hist i e,
    history yf t p = inr hist /\ info yf t = inr i
    /\ resolve_eps i = Some e /\ fgtb e fzero = true
    /\ kept_rows hist e <> []
    /\ c = add_overlays (frame_of (kept_rows hist e) e).
Proof.
  unfold build. intros Hb.
  destruct (render_chart _ _ Hb) as (df & Hl & _).
  destruct (load_data_returns yf t p df None Hl)
    as (hist & i & e & Hh & Hne & Hi & He & Hz & -> & _).
  rewrite Hl in Hb. exists hist, i, e.
  destruct (fgtb e fzero) eqn:Hgt.
  - rewrite (render_frame_positive hist e Hne Hgt) in Hb.
    destruct (kept_rows hist e) eqn:Hk; [discriminate|].
    injection Hb as <-. repeat split; auto.
  - rewrite (render_not_positive hist e Hne Hgt) in Hb. discriminate.
Qed.
End Plotted.

Section PlottedFacts.
Context {F : Type} `{ArithLaws F}.

Lemma filter_all {A : Type} (f : A -> bool) (l : list A) :
  Forall (fun x => f x = true) l -> List.filter f l = l.
Proof.
  induction 1 as [|x l Hx _ IH]; cbn; [reflexivity|].
  now rewrite Hx, IH.
Qed.

Lemma filter_none {A : Type} (f : A -> bool) (l : list A) :
  List.filter f l = [] <-> Forall (fun x => f x = false) l.
Proof.
  induction l as [|x l IH]; cbn.
  - split; constructor.
  - destruct (f x) eqn:Hx; split.
    + discriminate.
    + intros Hall. inversion Hall; congruence.
    + intros Hnil. constructor; [exact Hx | now apply IH].
    + intros Hall. inversion Hall; now apply IH.
Qed.

(** What the builder shows once rows, an [info] record and a non-zero EPS
    are at hand. *)
Lemma build_with_eps (yf : Yf F) (t p : string) (hist : list (Quote F))
    (i : Info F) (e : F) :
  history yf t p = inr hist -> hist <> [] -> info yf t = inr i ->
  resolve_eps i = Some e -> feqb e fzero = false ->
  build yf t p
  = if fgtb e fzero
    then match kept_rows hist e with
         | [] => StWarningNoPER
         | _ :: _ => StChart (add_overlays (frame_of (kept_rows hist e) e))
         end
    else StWarningNoPER.
Proof.
  intros Hh Hne Hi He Hz. unfold build.
  rewrite (load_data_frame yf t p hist i e Hh Hne Hi He Hz). cbn [snd].
  destruct (fgtb e fzero) eqn:Hgt.
  - now apply render_frame_positive.
  - now apply render_not_positive.
Qed.
End PlottedFacts.

(** X1.  [load_data] returns either a dataframe and no message or a message
    and no dataframe, never both and never neither; so after a press the
    page shows an error, the warning of line 106 or a chart, and the branch
    of line 183 is never taken. *)
Theorem load_data_one_of (yf : Yf spec_float) (t p : string) :
  ((exists df, snd (load_data yf t p) = (Some df, None))
   \/ (exists m, snd (load_data yf t p) = (None, Some m)))
  /\ build yf t p <> StPrompt.
Proof.
  unfold build. rewrite load_data_cases.
  destruct (history yf t p) as [e|[|q h]];
    [split; [right; eauto | discriminate]..|].
  destruct (info yf t) as [e|i]; [split; [right; eauto | discriminate]|].
  destruct (resolve_eps i) as [e|] eqn:He; cbn [none_or_zero];
    [|split; [right; eauto | discriminate]].
  destruct (feqb e fzero) eqn:Hz; [split; [right; eauto | discriminate]|].
  split; [left; eauto|]. cbn [snd].
  destruct (fgtb e fzero) eqn:Hgt.
  - rewrite (render_frame_positive (q :: h) e) by (auto; discriminate).
    destruct (kept_rows (q :: h) e); discriminate.
  - rewrite (render_not_positive (q :: h) e) by (auto; discriminate).
    discriminate.
Qed.

(** X2.  A failure of the source is reported, not raised.  When the history
    request raises [e], nothing else is requested and the page shows the
    message of line 85 with [e]; when the history has rows and reading
    [info] raises [e], no EPS key is looked up, nothing is divided, and the
    page shows the same message. *)
Theorem fetch_failure_is_reported
    (yf : Yf spec_float) (t p : string) (e : exn) :
  (history yf t p = inl e ->
   load_data yf t p = ([EvHistory t p], (None, Some (MsgLoadFailed e)))
   /\ build yf t p = FetchError e)
  /\ (forall hist : list (Quote spec_float),
        history yf t p = inr hist -> hist <> [] -> info yf t = inl e ->
        load_data yf t p
        = ([EvHistory t p; EvInfo t], (None, Some (MsgLoadFailed e)))
        /\ build yf t p = FetchError e).
Proof.
  split.
  - intros Hh. unfold build. rewrite load_data_cases, Hh. now split.
  - intros hist Hh Hne Hi. unfold build. rewrite load_data_cases, Hh.
    destruct hist as [|q h]; [congruence|]. rewrite Hi. now split.
Qed.

Lemma fetch_failure_is_reported_witness :
  build Cases.history_raises "AAPL" "1y" = FetchError (Exn "connection reset")
  /\ build Cases.info_raises "AAPL" "1y" = FetchError (Exn "no fundamentals").
Proof.
  split.
  - apply (fetch_failure_is_reported Cases.history_raises "AAPL" "1y"
             (Exn "connection reset")).
    reflexivity.
  - apply (proj2 (fetch_failure_is_reported Cases.info_raises "AAPL" "1y"
                    (Exn "no fundamentals"))
             (Examples.quotes [Examples.b 100; Examples.b 110]));
      [reflexivity | discriminate | reflexivity].
Defined.

(** X3.  A chart is shown only for a positive resolved EPS.  Its rows are
    the fetched rows whose quotient [Close / EPS] differs from [np.inf], in
    their order; the PER of each is that quotient, so no plotted PER equals
    [np.inf]. *)
Theorem chart_plots_kept_rows
    (yf : Yf spec_float) (t p : string) (c : Chart spec_float) :
  build yf t p = StChart c ->
  exists (hist : list (Quote spec_float)) (i : Info spec_float)
         (e : spec_float),
    history yf t p = inr hist /\ info yf t = inr i
    /\ resolve_eps i = Some e /\ fgtb e fzero = true
    /\ index (data c) = Date <$> kept_rows hist e
    /\ Price (data c) = Close <$> kept_rows hist e
    /\ PER (data c)
       = (fun q => SFdiv 53 1024 (Close q) e) <$> kept_rows hist e
    /\ Forall (fun x => fneb x finf = true) (PER (data c)).
Proof.
  intros Hb.
  destruct (build_chart yf t p c Hb)
    as (hist & i & e & Hh & Hi & He & Hgt & _ & ->).
  exists hist, i, e. rewrite add_overlays_data.
  cbn [index Price PER frame_of]. rewrite Hgt.
  repeat (split; [first [assumption | reflexivity]|]).
  apply Forall_fmap, Forall_forall. intros q Hq.
  apply list_elem_of_In in Hq.
  unfold kept_rows in Hq. apply filter_In in Hq as [_ Hq]. exact Hq.
Qed.

Lemma chart_plots_kept_rows_witness :
  exists (hist : list (Quote spec_float)) (e : spec_float),
    history Examples.overflowing "AAPL" "1y" = inr hist
    /\ fgtb e fzero = true
    /\ kept_rows hist e = [{| Date := 1; Close := Examples.b 100 |}].
Proof.
  assert (Hb : build Examples.overflowing "AAPL" "1y"
               = StChart
                   (add_overlays
                      (frame_of [{| Date := 1; Close := Examples.b 100 |}]
                                Examples.half)))
    by (vm_compute; reflexivity).
  destruct (chart_plots_kept_rows Examples.overflowing "AAPL" "1y" _ Hb)
    as (hist & i & e & Hh & Hi & He & Hgt & _).
  exists hist, e. split; [exact Hh|]. split; [exact Hgt|].
  injection Hh as <-. injection Hi as <-. injection He as <-.
  reflexivity.
Defined.

Lemma add_overlays_current_per {F : Type} `{Arith F} (df : DataFrame F) :
  current_per (add_overlays df) = default fnan (last (PER df)).
Proof. unfold add_overlays. now destruct (linregress _ _). Qed.

(** X4.  In every chart the seven columns have the same number of rows, at
    least one, and the PER of the summary line is the PER of the last
    plotted row. *)
Theorem chart_columns_aligned
    (yf : Yf spec_float) (t p : string) (c : Chart spec_float) :
  build yf t p = StChart c ->
  (0 < length (index (data c)))%nat
  /\ length (col_Close (data c)) = length (index (data c))
  /\ length (Price (data c)) = length (index (data c))
  /\ length (EPS (data c)) = length (index (data c))
  /\ length (PER (data c)) = length (index (data c))
  /\ length (PER_MA c) = length (index (data c))
  /\ length (Trendline c) = length (index (data c))
  /\ last (PER (data c)) = Some (current_per c).
Proof.
  intros Hb.
  destruct (build_chart yf t p c Hb)
    as (hist & i & e & _ & _ & _ & Hgt & Hk & ->).
  rewrite add_overlays_data, add_overlays_PER_MA, rolling_mean_length,
    trendline_length, add_overlays_current_per.
  cbn [index col_Close Price EPS PER frame_of]. rewrite Hgt.
  rewrite !length_fmap, length_replicate.
  split; [destruct (kept_rows hist e); [congruence | cbn; lia]|].
  do 6 (split; [reflexivity|]).
  destruct (last (_ <$> kept_rows hist e)) as [x|] eqn:Hl; [reflexivity|].
  apply last_None in Hl. apply fmap_nil_inv in Hl. congruence.
Qed.

Lemma chart_columns_aligned_witness :
  length (PER_MA (add_overlays
                    (frame_of (Examples.quotes
                                 (replicate 25 (Examples.b 50)))
                              (Examples.b 5))))
  = 25%nat
  /\ last (PER (frame_of (Examples.quotes (replicate 25 (Examples.b 50)))
                         (Examples.b 5)))
     = Some (Examples.b 10).
Proof.
  assert (Hb : build Examples.scenario_D "AAPL" "1y"
               = StChart
                   (add_overlays
                      (frame_of
                         (Examples.quotes (replicate 25 (Examples.b 50)))
                         (Examples.b 5))))
    by (vm_compute; reflexivity).
  destruct (chart_columns_aligned Examples.scenario_D "AAPL" "1y" _ Hb)
    as (_ & _ & _ & _ & _ & Hma & _ & Hlast).
  split.
  - rewrite Hma. vm_compute. reflexivity.
  - rewrite add_overlays_data in Hlast. rewrite Hlast.
    vm_compute. reflexivity.
Defined.

(** X5.  With a positive resolved EPS, if no row's quotient equals [np.inf]
    then every fetched row is plotted: the chart is built on the whole
    dataframe of [load_data]. *)
Theorem all_rows_plotted
    (yf : Yf spec_float) (t p : string) (hist : list (Quote spec_float))
    (i : Info spec_float) (e : spec_float) :
  history yf t p = inr hist -> hist <> [] -> info yf t = inr i ->
  resolve_eps i = Some e -> fgtb e fzero = true ->
  Forall (fun q => fneb (SFdiv 53 1024 (Close q) e) finf = true) hist ->
  build yf t p = StChart (add_overlays (frame_of hist e))
  /\ snd (load_data yf t p) = (Some (frame_of hist e), None).
Proof.
  intros Hh Hne Hi He Hgt Hall.
  pose proof (fgtb_zero_not_zero e Hgt) as Hz.
  rewrite (build_with_eps yf t p hist i e Hh Hne Hi He Hz), Hgt.
  rewrite (load_data_frame yf t p hist i e Hh Hne Hi He Hz).
  split; [|reflexivity].
  unfold kept_rows.
  rewrite filter_all by exact Hall.
  destruct hist; [congruence | reflexivity].
Qed.

Lemma all_rows_plotted_witness :
  build Examples.scenario_A "AAPL" "1y"
  = StChart (add_overlays
               (frame_of (Examples.quotes [Examples.b 100; Examples.b 110])
                         (Examples.b 10)))
  /\ snd (load_data Examples.scenario_A "AAPL" "1y")
     = (Some (frame_of (Examples.quotes [Examples.b 100; Examples.b 110])
                       (Examples.b 10)), None).
Proof.
  apply (all_rows_plotted Examples.scenario_A "AAPL" "1y"
           (Examples.quotes [Examples.b 100; Examples.b 110])
           {| trailingEps := Some (Examples.b 10); forwardEps := None |}
           (Examples.b 10));
    [reflexivity | discriminate | reflexivity | reflexivity | reflexivity |].
  repeat constructor.
Defined.

(** X6.  Once rows and a non-zero resolved EPS are at hand, the page shows
    the warning of line 106 exactly when the EPS is not positive (negative
    or NaN) or every row's quotient equals [np.inf]; in every other case it
    shows a chart. *)
Theorem no_valid_per_iff
    (yf : Yf spec_float) (t p : string) (hist : list (Quote spec_float))
    (i : Info spec_float) (e : spec_float) :
  history yf t p = inr hist -> hist <> [] -> info yf t = inr i ->
  resolve_eps i = Some e -> feqb e fzero = false ->
  (build yf t p = NoValidPERError
   <-> (fgtb e fzero = false
        \/ Forall (fun q => feqb (SFdiv 53 1024 (Close q) e) finf = true)
                  hist))
  /\ (build yf t p <> NoValidPERError -> exists c, build yf t p = StChart c).
Proof.
  intros Hh Hne Hi He Hz.
  rewrite (build_with_eps yf t p hist i e Hh Hne Hi He Hz).
  assert (Hnone : kept_rows hist e = []
                  <-> Forall (fun q => feqb (SFdiv 53 1024 (Close q) e) finf
                                       = true) hist).
  { unfold kept_rows. rewrite filter_none. unfold fneb.
    split; intros Hall; eapply Forall_impl; try exact Hall;
      intros q Hq; cbn beta in *.
    - now apply negb_false_iff in Hq.
    - now apply negb_false_iff. }
  destruct (fgtb e fzero) eqn:Hgt.
  - destruct (kept_rows hist e) as [|q l] eqn:Hk.
    + split; [|intros Hc; now contradict Hc].
      split; [intros _|reflexivity].
      right. now apply Hnone.
    + split; [|eauto]. split; [discriminate|].
      intros [|Hall]; [discriminate|].
      apply Hnone in Hall. discriminate.
  - split; [|intros Hc; now contradict Hc]. split; auto.
Qed.

Lemma no_valid_per_iff_witness :
  build Examples.negative_trailing "AAPL" "1y" = NoValidPERError.
Proof.
  apply (no_valid_per_iff Examples.negative_trailing "AAPL" "1y"
           (Examples.quotes [Examples.b 100; Examples.b 110])
           {| trailingEps := Some (Examples.b (-10));
              forwardEps := Some (Examples.b 10) |}
           (Examples.b (-10)));
    [reflexivity | discriminate | reflexivity | reflexivity | reflexivity |].
  left. reflexivity.
Defined.

(** X7.  A NaN trailing EPS is neither [None] nor equal to zero, so it
    blocks the fallback: [forwardEps] is not read however usable it is,
    every PER is [np.inf], and the page shows the warning of line 106. *)
Theorem nan_trailing_blocks_fallback
    (yf : Yf spec_float) (t p : string) (hist : list (Quote spec_float))
    (i : Info spec_float) :
  history yf t p = inr hist -> hist <> [] -> info yf t = inr i ->
  trailingEps i = Some S754_nan ->
  ~ In (EvGet "forwardEps") (fst (load_data yf t p))
  /\ (exists df, snd (load_data yf t p) = (Some df, None)
                 /\ PER df = replicate (length hist) finf)
  /\ build yf t p = NoValidPERError.
Proof.
  intros Hh Hne Hi Ht.
  assert (He : resolve_eps i = Some S754_nan)
    by (apply resolve_eps_trailing; [exact Ht | reflexivity]).
  assert (Hl := load_data_frame yf t p hist i S754_nan Hh Hne Hi He eq_refl).
  split; [|split].
  - rewrite Hl. cbn [fst]. unfold eps_events. rewrite Ht.
    cbn [none_or_zero]. change (feqb S754_nan fzero) with false.
    cbn [In app]. intros [|[|[|Hin]]]; try discriminate.
    unfold div_events in Hin.
    apply list_elem_of_In, list_elem_of_fmap in Hin as (? & ? & _).
    discriminate.
  - exists (frame_of hist S754_nan). rewrite Hl. split; reflexivity.
  - unfold build. rewrite Hl. cbn [snd].
    apply render_not_positive; [exact Hne | reflexivity].
Qed.

Lemma nan_trailing_blocks_fallback_witness :
  ~ In (EvGet "forwardEps") (fst (load_data Cases.nan_trailing "AAPL" "1y"))
  /\ build Cases.nan_trailing "AAPL" "1y" = NoValidPERError.
Proof.
  destruct (nan_trailing_blocks_fallback Cases.nan_trailing "AAPL" "1y"
              (Examples.quotes [Examples.b 100; Examples.b 110])
              {| trailingEps := Some S754_nan;
                 forwardEps := Some (Examples.b 10) |}
              eq_refl ltac:(discriminate) eq_refl eq_refl)
    as (Hf & _ & Hb).
  exact (conj Hf Hb).
Defined.

(** ** The text input and the cache *)

Lemma upper_ascii_idem (c : ascii) :
  upper_ascii (upper_ascii c) = upper_ascii c.
Proof. destruct c as [[] [] [] [] [] [] [] []]; reflexivity. Qed.

Lemma upper_idem (s : string) : upper (upper s) = upper s.
Proof.
  induction s as [|c s IH]; cbn; [reflexivity|].
  now rewrite upper_ascii_idem, IH.
Qed.

Lemma click_hit (yf : Yf spec_float)
    (cache : gmap (string * string)
                  (option (DataFrame spec_float) * option message))
    (text : string) (period : period_name)
    (r : option (DataFrame spec_float) * option message) :
  cache !! (ticker_symbol text, period_options period) = Some r ->
  click yf cache text period = ([], render r, cache).
Proof. intros Hc. unfold click. now rewrite (cache_data_hit _ _ _ _ r Hc). Qed.

Lemma click_stores (yf : Yf spec_float)
    (cache : gmap (string * string)
                  (option (DataFrame spec_float) * option message))
    (text : string) (period : period_name) :
  exists r,
    snd (click yf cache text period)
      !! (ticker_symbol text, period_options period) = Some r
    /\ snd (fst (click yf cache text period)) = render r.
Proof.
  unfold click.
  pose proof (cache_data_stores (load_data yf) cache
                (ticker_symbol text) (period_options period)) as Hs.
  destruct (cache_data (load_data yf) cache (ticker_symbol text)
              (period_options period)) as [[l r] c1].
  cbn [fst snd] in *. now exists r.
Qed.

(** X8.  The ticker is uppercased before it becomes a request and a cache
    key, and uppercasing twice changes nothing.  So two texts that differ
    only in the case of their letters are one ticker: a press with the
    second text after a press with the first, for the same period, finds
    the stored result, asks the source nothing and shows the same
    outcome. *)
Theorem letter_case_shares_cache_entry
    (yf yf' : Yf spec_float)
    (cache : gmap (string * string)
                  (option (DataFrame spec_float) * option message))
    (text text' : string) (period : period_name) :
  ticker_symbol (ticker_symbol text) = ticker_symbol text
  /\ (ticker_symbol text = ticker_symbol text' ->
      click yf' (snd (click yf cache text period)) text' period
      = ([], snd (fst (click yf cache text period)),
         snd (click yf cache text period))).
Proof.
  split; [apply upper_idem|].
  intros Hsame.
  destruct (click_stores yf cache text period) as (r & Hs & ->).
  rewrite Hsame in Hs. now apply click_hit.
Qed.

Lemma letter_case_shares_cache_entry_witness :
  click Cases.offline (snd (click Examples.scenario_A ∅ "aapl" Period1y))
        "AaPl" Period1y
  = ([], snd (fst (click Examples.scenario_A ∅ "aapl" Period1y)),
     snd (click Examples.scenario_A ∅ "aapl" Period1y)).
Proof.
  apply (letter_case_shares_cache_entry Examples.scenario_A Cases.offline ∅
           "aapl" "AaPl" Period1y).
  reflexivity.
Defined.

(** X9.  A press never replaces or removes a cache entry and touches no key
    but the one requested.  When the requested key is already stored, its
    result is shown as it is, the source is not asked, and the cache is
    unchanged: a stored result, an error message included, is never
    refreshed. *)
Theorem cache_entries_are_kept
    (yf : Yf spec_float)
    (cache : gmap (string * string)
                  (option (DataFrame spec_float) * option message))
    (text : string) (period : period_name) :
  (forall r,
      cache !! (ticker_symbol text, period_options period) = Some r ->
      click yf cache text period = ([], render r, cache))
  /\ (forall k r,
        cache !! k = Some r ->
        snd (click yf cache text period) !! k = Some r)
  /\ (forall k,
        k <> (ticker_symbol text, period_options period) ->
        snd (click yf cache text period) !! k = cache !! k).
Proof.
  split; [intros r; apply click_hit|].
  assert (Hother : forall k,
             k <> (ticker_symbol text, period_options period) ->
             snd (click yf cache text period) !! k = cache !! k).
  { intros k Hk. unfold click, cache_data.
    destruct (cache !! (ticker_symbol text, period_options period));
      [reflexivity|].
    destruct (load_data yf _ _) as [l r]. cbn [snd].
    now apply lookup_insert_ne. }
  split; [|exact Hother].
  intros k r Hk.
  destruct (decide (k = (ticker_symbol text, period_options period)))
    as [->|Hne].
  - now rewrite (click_hit yf cache text period r Hk).
  - now rewrite Hother.
Qed.

Lemma cache_entries_are_kept_witness :
  click Examples.scenario_A
        (snd (click Cases.offline ∅ "aapl" Period1y)) "aapl" Period1y
  = ([], FetchError (Exn "offline"),
     snd (click Cases.offline ∅ "aapl" Period1y)).
Proof.
  destruct (cache_entries_are_kept Examples.scenario_A
              (snd (click Cases.offline ∅ "aapl" Period1y)) "aapl" Period1y)
    as [Hhit _].
  apply (Hhit (None, Some (MsgLoadFailed (Exn "offline")))).
  vm_compute. reflexivity.
Defined.

(** X10.  The seven period labels map to seven different codes, so two
    different periods of one ticker are two cache keys: a press for one
    period leaves the entry of every other period as it was. *)
Theorem periods_have_own_entries
    (yf : Yf spec_float)
    (cache : gmap (string * string)
                  (option (DataFrame spec_float) * option message))
    (text : string) (period period' : period_name) :
  (period_options period = period_options period' -> period = period')
  /\ (period <> period' ->
      snd (click yf cache text period)
        !! (ticker_symbol text, period_options period')
      = cache !! (ticker_symbol text, period_options period')).
Proof.
  assert (Hinj : period_options period = period_options period' ->
                 period = period').
  { destruct period, period'; cbn; intros Hp;
      first [reflexivity | discriminate Hp]. }
  split; [exact Hinj|].
  intros Hne. unfold click, cache_data.
  destruct (cache !! (ticker_symbol text, period_options period));
    [reflexivity|].
  destruct (load_data yf _ _) as [l r]. cbn [snd].
  apply lookup_insert_ne. intros [= Hp]. auto.
Qed.

Lemma periods_have_own_entries_witness :
  snd (click Examples.scenario_A ∅ "aapl" Period1y) !! ("AAPL", "5y") = None.
Proof.
  destruct (periods_have_own_entries Examples.scenario_A ∅ "aapl"
              Period1y Period5y) as [_ Hk].
  exact (Hk ltac:(discriminate)).
Defined.

(** ** Short histories, and the order of the requests *)

Lemma rolling_mean_short {F : Type} `{Arith F} (w : nat) (xs : list F) :
  (length xs < w)%nat -> rolling_mean w xs = replicate (length xs) fnan.
Proof.
  intros Hlt. apply list_eq. intros j.
  destruct (Nat.lt_ge_cases j (length xs)) as [Hj|Hj].
  - rewrite rolling_mean_lookup by exact Hj.
    rewrite (lookup_replicate_2 (length xs) fnan j Hj).
    destruct (Nat.ltb_spec (j + 1) w); [reflexivity | lia].
  - rewrite !lookup_ge_None_2; [reflexivity | |].
    + now rewrite length_replicate.
    + now rewrite rolling_mean_length.
Qed.

(** X11.  When fewer than 20 rows are plotted the moving-average column
    holds NaN on every row: the chart has no moving-average line. *)
Theorem short_chart_has_no_moving_average
    (yf : Yf spec_float) (t p : string) (c : Chart spec_float) :
  build yf t p = StChart c ->
  (length (PER (data c)) < 20)%nat ->
  PER_MA c = replicate (length (PER (data c))) fnan.
Proof.
  intros Hb Hlt. apply render_chart in Hb as (df & _ & ->).
  rewrite add_overlays_data in *. rewrite add_overlays_PER_MA.
  now apply rolling_mean_short.
Qed.

Lemma short_chart_has_no_moving_average_witness :
  PER_MA (add_overlays
            (frame_of (Examples.quotes (replicate 12 (Examples.b 50)))
                      (Examples.b 5)))
  = replicate
      (length (PER (data (add_overlays
                            (frame_of
                               (Examples.quotes
                                  (replicate 12 (Examples.b 50)))
                               (Examples.b 5))))))
      fnan.
Proof.
  assert (Hb : build Cases.short_history "AAPL" "1y"
               = StChart
                   (add_overlays
                      (frame_of
                         (Examples.quotes (replicate 12 (Examples.b 50)))
                         (Examples.b 5))))
    by (vm_compute; reflexivity).
  apply (short_chart_has_no_moving_average Cases.short_history "AAPL" "1y"
           _ Hb).
  vm_compute. lia.
Defined.

(** X12.  [load_data] works in a fixed order and stops at the first failure.
    It begins with the history request; it reads [info] only after the
    history returned rows; it looks up an EPS key, which is [trailingEps]
    or [forwardEps], only after [info] was read; and it divides only when
    it goes on to return a dataframe, the dividend being a price of that
    dataframe. *)
Theorem load_data_order (yf : Yf spec_float) (t p : string) :
  hd_error (fst (load_data yf t p)) = Some (EvHistory t p)
  /\ (forall t', In (EvInfo t') (fst (load_data yf t p)) ->
        t' = t /\ exists q h, history yf t p = inr (q :: h))
  /\ (forall k, In (EvGet k) (fst (load_data yf t p)) ->
        (k = "trailingEps" \/ k = "forwardEps")
        /\ exists i, info yf t = inr i)
  /\ (forall x y, In (EvDiv x y) (fst (load_data yf t p)) ->
        exists df, snd (load_data yf t p) = (Some df, None)
                   /\ In x (Price df)).
Proof.
  split; [apply load_data_first|].
  assert (Heps : forall i (ev : event spec_float),
             In ev (eps_events i) ->
             ev = EvGet "trailingEps" \/ ev = EvGet "forwardEps").
  { intros i ev. unfold eps_events.
    destruct (none_or_zero (trailingEps i)); cbn; intuition auto. }
  assert (Hdiv : forall hist e (ev : event spec_float),
             In ev (div_events hist e) ->
             exists q, In q hist /\ ev = EvDiv (Close q) e).
  { intros hist e ev Hin. unfold div_events in Hin.
    apply list_elem_of_In, list_elem_of_fmap in Hin as (q & -> & Hq).
    exists q. split; [now apply list_elem_of_In | reflexivity]. }
  rewrite load_data_cases.
  destruct (history yf t p) as [e|[|q h]].
  1,2: cbn; repeat split; intros; intuition discriminate.
  destruct (info yf t) as [e|i].
  { cbn. repeat split; intros; try intuition discriminate.
    - destruct H as [|[[= ->]|[]]]; [discriminate | reflexivity].
    - eauto. }
  destruct (none_or_zero (resolve_eps i)) eqn:Hz;
    [|destruct (resolve_eps i) as [e|] eqn:He; [|discriminate]];
    cbn [fst snd].
  - split; [|split].
    + intros t' [|[[= ->]|Hin]]; [discriminate| eauto |].
      apply Heps in Hin as [|]; discriminate.
    + intros k [|[|Hin]]; [discriminate..|].
      apply Heps in Hin as [[= ->]|[= ->]]; eauto.
    + intros x y [|[|Hin]]; [discriminate..|].
      apply Heps in Hin as [|]; discriminate.
  - split; [|split].
    + intros t' [|[[= ->]|Hin]]; [discriminate| eauto |].
      apply in_app_or in Hin as [Hin|Hin].
      * apply Heps in Hin as [|]; discriminate.
      * apply Hdiv in Hin as (? & _ & ?). discriminate.
    + intros k [|[|Hin]]; [discriminate..|].
      apply in_app_or in Hin as [Hin|Hin].
      * apply Heps in Hin as [[= ->]|[= ->]]; eauto.
      * apply Hdiv in Hin as (? & _ & ?). discriminate.
    + intros x y [|[|Hin]]; [discriminate..|].
      apply in_app_or in Hin as [Hin|Hin].
      * apply Heps in Hin as [|]; discriminate.
      * apply Hdiv in Hin as (q' & Hq & [= -> ->]).
        eexists. split; [reflexivity|].
        cbn [Price frame_of]. apply list_elem_of_In, list_elem_of_fmap.
        exists q'. split; [reflexivity | now apply list_elem_of_In].
Qed.

Lemma load_data_order_witness :
  exists df,
    snd (load_data Examples.scenario_A "AAPL" "1y") = (Some df, None)
    /\ In (Examples.b 100) (Price df).
Proof.
  destruct (load_data_order Examples.scenario_A "AAPL" "1y")
    as (_ & _ & _ & Hdiv).
  apply (Hdiv (Examples.b 100) (Examples.b 10)).
  do 3 right. left. reflexivity.
Defined.

(** ** The rows of the dataframe, and gaps in the moving average *)

(** X14.  A dataframe returned by [load_data] holds the fetched rows, all of
    them and in their order: its index is the dates of the history, its
    [Close] and [Price] columns are the closing prices, every column has
    one entry per fetched row, and no message comes with it. *)
Theorem load_data_keeps_rows
    (yf : Yf spec_float) (t p : string) (df : DataFrame spec_float)
    (m : option message) :
  snd (load_data yf t p) = (Some df, m) ->
  m = None
  /\ exists hist : list (Quote spec_float),
       history yf t p = inr hist
       /\ index df = Date <$> hist
       /\ col_Close df = Close <$> hist
       /\ Price df = Close <$> hist
       /\ length (EPS df) = length hist
       /\ length (PER df) = length hist.
Proof.
  intros Hl.
  destruct (load_data_returns yf t p df m Hl)
    as (hist & i & e & Hh & _ & _ & _ & _ & -> & ->).
  split; [reflexivity|]. exists hist.
  cbn [index col_Close Price EPS PER frame_of].
  rewrite length_replicate.
  repeat (split; [first [assumption | reflexivity]|]).
  destruct (fgtb e fzero); [apply length_fmap | apply length_replicate].
Qed.

Lemma load_data_keeps_rows_witness :
  exists hist : list (Quote spec_float),
    history Examples.negative_trailing "AAPL" "1y" = inr hist
    /\ index (frame_of (Examples.quotes [Examples.b 100; Examples.b 110])
                       (Examples.b (-10)))
       = Date <$> hist.
Proof.
  assert (Hl : snd (load_data Examples.negative_trailing "AAPL" "1y")
               = (Some (frame_of
                          (Examples.quotes [Examples.b 100; Examples.b 110])
                          (Examples.b (-10))), None))
    by reflexivity.
  destruct (load_data_keeps_rows Examples.negative_trailing "AAPL" "1y" _ _ Hl)
    as (_ & hist & Hh & Hidx & _).
  exists hist. exact (conj Hh Hidx).
Defined.

Lemma forallb_lookup_false {A : Type} (f : A -> bool) (l : list A)
    (k : nat) (x : A) :
  l !! k = Some x -> f x = false -> forallb f l = false.
Proof.
  intros Hk Hx. destruct (forallb f l) eqn:E; [|reflexivity].
  rewrite forallb_forall in E.
  assert (Hin : In x l).
  { apply list_elem_of_In. eapply list_elem_of_lookup_2; eauto. }
  specialize (E x Hin). congruence.
Qed.

(** X15.  A plotted row whose PER is not finite (the NaN of a row without a
    closing price) leaves the moving average undefined on that row and on
    the 19 rows that follow it. *)
Theorem undefined_per_blanks_moving_average
    (yf : Yf spec_float) (t p : string) (c : Chart spec_float)
    (k i : nat) (x : spec_float) :
  build yf t p = StChart c ->
  PER (data c) !! k = Some x -> fis_finite x = false ->
  (k <= i)%nat -> (i < k + 20)%nat -> (i < length (PER (data c)))%nat ->
  PER_MA c !! i = Some fnan.
Proof.
  intros Hb Hk Hx Hki Hik Hi.
  apply render_chart in Hb as (df & _ & ->).
  rewrite add_overlays_data in *. rewrite add_overlays_PER_MA.
  rewrite rolling_mean_lookup by exact Hi. unfold window.
  destruct (Nat.ltb_spec (i + 1) 20); [reflexivity|].
  rewrite (forallb_lookup_false fis_finite _ (k - (i + 1 - 20)) x);
    [reflexivity | | exact Hx].
  rewrite window_at_lookup by lia. rewrite <- Hk. f_equal. lia.
Qed.

Lemma undefined_per_blanks_moving_average_witness :
  PER_MA (add_overlays
            (frame_of (Examples.quotes Cases.gap_closes) (Examples.b 5)))
    !! 22%nat
  = Some fnan.
Proof.
  assert (Hb : build Cases.gap_history "AAPL" "1y"
               = StChart
                   (add_overlays
                      (frame_of (Examples.quotes Cases.gap_closes)
                                (Examples.b 5))))
    by (vm_compute; reflexivity).
  apply (undefined_per_blanks_moving_average Cases.gap_history "AAPL" "1y"
           _ 3 22 S754_nan Hb);
    [vm_compute; reflexivity | reflexivity | lia | lia | vm_compute; lia].
Defined.
